(** * Launcher scripts and the age-based image renamer

    A shallow embedding of the four Python scripts of the repository:

    - [pictures/rename_by_age.py]  (module [rename_by_age])
    - [play_story_choice.py]       (module [play_story_choice])
    - [play_latest.py]             (module [play_latest])
    - [run.py]                     (module [run])

    The scripts talk to the operating system through [glob], [os.path],
    [os.rename], [subprocess] and [input].  Module [OS] models the part of
    those interfaces the scripts use: a directory is an ordered list of
    entries (the order is the order the directory listing produces), and
    the two families of platforms CPython distinguishes ([posixpath] and
    [ntpath]) are a parameter, because [fnmatch] and file-name lookup fold
    case on one and not on the other. *)

From Stdlib Require Import List String Ascii ZArith Arith Lia Bool.
From Stdlib Require Import Sorting.Sorted Sorting.Permutation.
Import ListNotations.

Local Open Scope string_scope.
Local Open Scope list_scope.

(** ** Python string helpers *)

Module Py.

(** [s.startswith(pre)] *)
Definition startswith (s pre : string) : bool := String.prefix pre s.

(** [s.endswith(suf)] *)
Fixpoint endswith (s suf : string) : bool :=
  String.eqb s suf ||
  match s with
  | EmptyString => false
  | String _ s' => endswith s' suf
  end.

(** [c.lower()] on the ASCII range. *)
Definition lower_ascii (c : ascii) : ascii :=
  let n := nat_of_ascii c in
  if ((65 <=? n)%nat && (n <=? 90)%nat)%bool then ascii_of_nat (n + 32) else c.

(** [s.lower()], byte-wise on ASCII letters; other bytes are kept. *)
Fixpoint lower (s : string) : string :=
  match s with
  | EmptyString => EmptyString
  | String c s' => String (lower_ascii c) (lower s')
  end.

(** [s.replace(a, b)] for single characters. *)
Fixpoint replace_char (a b : ascii) (s : string) : string :=
  match s with
  | EmptyString => EmptyString
  | String c s' => String (if Ascii.eqb c a then b else c) (replace_char a b s')
  end.

(** [sep.join(l)] *)
Fixpoint join (sep : string) (l : list string) : string :=
  match l with
  | [] => ""
  | [x] => x
  | x :: rest => x ++ sep ++ join sep rest
  end.

(** The decimal digit of a number below ten. *)
Definition digit (d : nat) : ascii := ascii_of_nat (48 + d).

(** Decimal digits of [n], most significant first, in front of [acc]. *)
Fixpoint digits (fuel n : nat) (acc : string) : string :=
  match fuel with
  | 0 => acc
  | S fuel' =>
      if (n <? 10)%nat then String (digit n) acc
      else digits fuel' (n / 10) (String (digit (n mod 10)) acc)
  end.

(** [str(n)] for a non-negative integer. *)
Definition str (n : nat) : string := digits (S n) n "".

(** [str(z)] for an integer. *)
Definition str_int (z : Z) : string :=
  if (z <? 0)%Z then String "-" (str (Z.to_nat (- z))) else str (Z.to_nat z).

(** [s.zfill(width)] for a string of digits. *)
Fixpoint zeros (k : nat) : string :=
  match k with
  | 0 => ""
  | S k' => String "0" (zeros k')
  end.

Definition zfill (width : nat) (s : string) : string :=
  zeros (width - String.length s) ++ s.

(** [f"{i:04d}"] for a non-negative integer. *)
Definition fmt04d (i : nat) : string := zfill 4 (str i).

(** [s * n] *)
Fixpoint times (s : string) (n : nat) : string :=
  match n with
  | 0 => ""
  | S n' => s ++ times s n'
  end.

(** [sorted(l, key=key, reverse=True)] and [l.sort(key=key, reverse=True)].
    Python's sort is stable, also with [reverse=True]: elements with equal
    keys keep their order.  Insertion from the right, in front of the
    first element whose key is not greater, gives that list. *)
Section Sorting.
Context {A : Type} (key : A -> Z).

Fixpoint insert_reverse (x : A) (l : list A) : list A :=
  match l with
  | [] => [x]
  | y :: l' =>
      if (key y <=? key x)%Z then x :: l else y :: insert_reverse x l'
  end.

Definition sorted_reverse (l : list A) : list A :=
  fold_right insert_reverse [] l.

(** The order of a list sorted with [reverse=True]. *)
Definition newer_first (a b : A) : Prop := (key b <= key a)%Z.

(** [max(x :: rest, key=key)]: the first element with the greatest key. *)
Definition max_by (x : A) (rest : list A) : A :=
  fold_left (fun best y => if (key best <? key y)%Z then y else best) rest x.
End Sorting.

(** [int(s)] for a string of decimal digits: Horner's rule from [acc]. *)
Fixpoint int_from (acc : nat) (s : string) : nat :=
  match s with
  | EmptyString => acc
  | String c s' => int_from (10 * acc + (nat_of_ascii c - 48)) s'
  end.

Definition int (s : string) : nat := int_from 0 s.

(** [c.isspace()] on the ASCII range. *)
Definition isspace (c : ascii) : bool :=
  let n := nat_of_ascii c in
  ((n =? 32) || ((9 <=? n) && (n <=? 13)) || ((28 <=? n) && (n <=? 31)))%nat%bool.

Fixpoint lstrip (s : string) : string :=
  match s with
  | EmptyString => EmptyString
  | String c s' => if isspace c then lstrip s' else s
  end.

Fixpoint rstrip (s : string) : string :=
  match s with
  | EmptyString => EmptyString
  | String c s' =>
      match rstrip s' with
      | EmptyString => if isspace c then EmptyString else String c EmptyString
      | r => String c r
      end
  end.

(** [s.strip()] *)
Definition strip (s : string) : string := rstrip (lstrip s).

Definition isdigit (c : ascii) : bool :=
  let n := nat_of_ascii c in ((48 <=? n) && (n <=? 57))%nat%bool.

(** The digits of an integer literal: at least one digit, single
    underscores allowed between digits. *)
Fixpoint int_digits (acc : Z) (after_digit : bool) (s : string) : option Z :=
  match s with
  | EmptyString => if after_digit then Some acc else None
  | String c s' =>
      if isdigit c then
        int_digits (10 * acc + Z.of_nat (nat_of_ascii c - 48)) true s'
      else if (Ascii.eqb c "_" && after_digit)%bool then
        int_digits acc false s'
      else None
  end.

(** [int(s)] on text: surrounding white space, an optional sign, decimal
    digits.  [None] stands for [ValueError].  This is Python's [int] on
    text of ASCII characters: digits and white space outside ASCII, which
    Python also accepts, are not modelled, nor is the [ValueError] that
    Python raises for more than 4300 digits. *)
Definition parse_int (s : string) : option Z :=
  match strip s with
  | String "+" s' => int_digits 0 false s'
  | String "-" s' => option_map Z.opp (int_digits 0 false s')
  | s' => int_digits 0 false s'
  end.

(** A string of decimal digits. *)
Fixpoint all_digits (s : string) : Prop :=
  match s with
  | EmptyString => True
  | String c s' => isdigit c = true /\ all_digits s'
  end.


End Py.

(** ** The operating system interface *)

Module OS.

(** [sys.platform.startswith('win')] is [true] on [Windows]. *)
Inductive platform := Posix | Windows.

Definition is_win (p : platform) : bool :=
  match p with Windows => true | Posix => false end.

(** [os.path.normcase]: the identity in [posixpath]; in [ntpath] it turns
    slashes into backslashes and folds to lower case. *)
Definition normcase (p : platform) (s : string) : string :=
  match p with
  | Posix => s
  | Windows => Py.lower (Py.replace_char "/" "\" s)
  end.

(** Names that [ntpath.normcase] leaves alone. *)
Definition stable (s : string) : Prop := normcase Windows s = s.

(** [fnmatch.fnmatchcase] for patterns built from literal characters,
    [*] and [?] (the scripts use no bracket expression). *)
Fixpoint fnmatchcase_pat (pat : string) : string -> bool :=
  match pat with
  | EmptyString => fun name => String.eqb name ""
  | String c pat' =>
      if Ascii.eqb c "*" then
        fix star (name : string) : bool :=
          fnmatchcase_pat pat' name ||
          match name with
          | EmptyString => false
          | String _ name' => star name'
          end
      else if Ascii.eqb c "?" then
        fun name =>
          match name with
          | EmptyString => false
          | String _ name' => fnmatchcase_pat pat' name'
          end
      else
        fun name =>
          match name with
          | EmptyString => false
          | String d name' => Ascii.eqb c d && fnmatchcase_pat pat' name'
          end
  end.

Definition fnmatchcase (name pat : string) : bool := fnmatchcase_pat pat name.

(** A pattern without wildcard. *)
Fixpoint literal (pat : string) : bool :=
  match pat with
  | EmptyString => true
  | String c pat' =>
      negb (Ascii.eqb c "*") && negb (Ascii.eqb c "?") && literal pat'
  end.

(** [fnmatch.filter(names, pat)]: the pattern is normalised once, and the
    names are normalised too unless [os.path] is [posixpath] (where
    [normcase] is the identity anyway). *)
Definition fnmatch_filter (p : platform) (names : list string) (pat : string)
  : list string :=
  let pat' := normcase p pat in
  filter (fun name => fnmatchcase (normcase p name) pat') names.

(** [glob._ishidden] *)
Definition ishidden (path : string) : bool :=
  match path with
  | String c _ => Ascii.eqb c "."
  | EmptyString => false
  end.

(** A directory entry.  [e_protected] stands for every reason the system
    has to refuse moving the entry (an immutable flag, a sticky directory,
    a sharing violation): [os.rename] raises [PermissionError] on it. *)
Record entry := mkEntry {
  e_name : string;
  e_mtime : Z;
  e_data : string;
  e_protected : bool
}.

(** A directory, in the order its listing is produced. *)
Definition directory := list entry.


Definition with_name (n : string) (e : entry) : entry :=
  mkEntry n (e_mtime e) (e_data e) (e_protected e).

(** Two names designate the same entry: byte equality on POSIX, equality
    up to case on Windows. *)
Definition same_name (p : platform) (a b : string) : bool :=
  String.eqb (normcase p a) (normcase p b).

Definition listdir (d : directory) : list string := map e_name d.

Fixpoint lookup (p : platform) (d : directory) (n : string) : option entry :=
  match d with
  | [] => None
  | e :: d' => if same_name p (e_name e) n then Some e else lookup p d' n
  end.

(** [os.path.exists] in a [directory], whose entries are files: a name
    exists when it is listed.  ([Links.path_exists] also covers a symbolic
    link whose target is gone, which is listed and does not exist.) *)
Definition path_exists (p : platform) (d : directory) (n : string) : bool :=
  match lookup p d n with Some _ => true | None => false end.

(** The [OSError]s the model raises; each carries the two file names of
    the failed [os.rename], or the one of [os.path.getmtime]. *)
Inductive exn :=
| FileNotFoundError (src : string) (dst : option string)
| PermissionError (src : string) (dst : option string)
| FileExistsError (src : string) (dst : option string).

Definition quoted (s : string) : string := "'" ++ s ++ "'".

Definition exn_files (src : string) (dst : option string) : string :=
  match dst with
  | None => quoted src
  | Some d => quoted src ++ " -> " ++ quoted d
  end.

(** [str(e)] *)
Definition exn_str (p : platform) (e : exn) : string :=
  match p, e with
  | Posix, FileNotFoundError s d =>
      "[Errno 2] No such file or directory: " ++ exn_files s d
  | Posix, PermissionError s d =>
      "[Errno 1] Operation not permitted: " ++ exn_files s d
  | Posix, FileExistsError s d =>
      "[Errno 17] File exists: " ++ exn_files s d
  | Windows, FileNotFoundError s d =>
      "[WinError 2] The system cannot find the file specified: "
      ++ exn_files s d
  | Windows, PermissionError s d =>
      "[WinError 32] The process cannot access the file because it is being used by another process: "
      ++ exn_files s d
  | Windows, FileExistsError s d =>
      "[WinError 183] Cannot create a file when that file already exists: "
      ++ exn_files s d
  end.

(** [os.path.getmtime] in a [directory], whose entries are files.
    ([Links.getmtime] also covers a symbolic link whose target is gone,
    for which it raises.) *)
Definition getmtime (p : platform) (d : directory) (n : string) : exn + Z :=
  match lookup p d n with
  | Some e => inr (e_mtime e)
  | None => inl (FileNotFoundError n None)
  end.

(** Give the entry called [old] the name [new], in place. *)
Fixpoint move (p : platform) (d : directory) (old new : string) : directory :=
  match d with
  | [] => []
  | e :: d' =>
      if same_name p (e_name e) old then with_name new e :: d'
      else e :: move p d' old new
  end.

(** Drop the entry called [n]. *)
Fixpoint unlink (p : platform) (d : directory) (n : string) : directory :=
  match d with
  | [] => []
  | e :: d' =>
      if same_name p (e_name e) n then d' else e :: unlink p d' n
  end.

(** [os.rename(old, new)].  When [new] designates another existing entry,
    POSIX replaces that entry silently and Windows raises
    [FileExistsError]. *)
Definition rename (p : platform) (d : directory) (old new : string)
  : exn + directory :=
  match lookup p d old with
  | None => inl (FileNotFoundError old (Some new))
  | Some e =>
      if e_protected e then inl (PermissionError old (Some new))
      else if same_name p old new then inr (move p d old new)
      else if path_exists p d new then
        match p with
        | Windows => inl (FileExistsError old (Some new))
        | Posix => inr (move p (unlink p d new) old new)
        end
      else inr (move p d old new)
  end.

(** [glob.glob(pattern)] in the directory [d], for a pattern without a
    directory part: hidden names are left out unless the pattern itself
    is hidden, then [fnmatch.filter] selects. *)
Definition glob (p : platform) (d : directory) (pattern : string)
  : list string :=
  let names := listdir d in
  let names := if ishidden pattern then names
               else filter (fun x => negb (ishidden x)) names in
  fnmatch_filter p names pattern.

(** [Path.glob(pattern)] of [pathlib], for a one-component pattern: the
    wildcard selector matches every name of the listing, hidden ones
    included, folding case on Windows. *)
Definition path_glob (p : platform) (d : directory) (pattern : string)
  : list entry :=
  filter (fun e => fnmatchcase (normcase p (e_name e)) (normcase p pattern)) d.

(** The names of a directory as the platform compares them. *)
Definition keys (p : platform) (d : directory) : list string :=
  map (fun e => normcase p (e_name e)) d.

(** No two entries of a directory designate the same file. *)
Fixpoint wf (p : platform) (d : directory) : bool :=
  match d with
  | [] => true
  | e :: d' => negb (path_exists p d' (e_name e)) && wf p d'
  end.

End OS.

(** ** pictures/rename_by_age.py *)

Module rename_by_age.
Import OS.

(** What the script acts on and leaves behind: the current directory, the
    lines printed so far, and the [os.rename] calls made so far (source
    and target, in call order). *)
Record world := mkWorld {
  fs : directory;
  stdout : list string;
  renames : list (string * string)
}.

Definition initial (d : directory) : world := mkWorld d [] [].

(** [print(line)] *)
Definition print (w : world) (line : string) : world :=
  mkWorld (fs w) (stdout w ++ [line]) (renames w).

(** How a call of the script ends: it returns, or an exception nobody
    catches ends the process. *)
Inductive outcome :=
| Returned (w : world)
| Uncaught (e : exn) (w : world).

Definition nl : string := String (ascii_of_nat 10) "".

(** Line 7: the four globs, concatenated. *)
Definition jpg_files (p : platform) (d : directory) : list string :=
  glob p d "*.jpg" ++ glob p d "*.JPG" ++ glob p d "*.jpeg" ++ glob p d "*.JPEG".

(** Lines 14-18: the loop that fills [file_info]. *)
Fixpoint collect (p : platform) (d : directory) (files : list string)
  (file_info : list (string * Z)) : exn + list (string * Z) :=
  match files with
  | [] => inr file_info
  | file :: rest =>
      if negb (Py.startswith file "0") then
        match getmtime p d file with
        | inl e => inl e
        | inr mtime => collect p d rest (file_info ++ [(file, mtime)])
        end
      else collect p d rest file_info
  end.

(** Line 25: [file_info.sort(key=lambda x: x[1], reverse=True)] *)
Definition sort_newest_first (l : list (string * Z)) : list (string * Z) :=
  Py.sorted_reverse snd l.

(** Line 29 *)
Definition new_name (i : nat) : string := Py.fmt04d i ++ ".jpg".

(** The three f-strings of lines 33, 38 and 40. *)
Definition warning_msg (new_name old_name : string) : string :=
  "Warning: " ++ new_name ++ " already exists, skipping " ++ old_name.

Definition renamed_msg (old_name new_name : string) : string :=
  "Renamed: " ++ old_name ++ " -> " ++ new_name.

Definition error_msg (p : platform) (old_name : string) (e : exn) : string :=
  "Error renaming " ++ old_name ++ ": " ++ exn_str p e.

(** Lines 29-40: the body of the renaming loop. *)
Definition rename_step (p : platform) (i : nat) (old_name : string)
  (w : world) : world :=
  let new_name := new_name i in
  if path_exists p (fs w) new_name then
    print w (warning_msg new_name old_name)
  else
    let w := mkWorld (fs w) (stdout w) (renames w ++ [(old_name, new_name)]) in
    match rename p (fs w) old_name new_name with
    | inr d' =>
        print (mkWorld d' (stdout w) (renames w))
              (renamed_msg old_name new_name)
    | inl e =>
        print w (error_msg p old_name e)
    end.

(** Line 28: [for i, (old_name, _) in enumerate(file_info)], from [i]. *)
Fixpoint rename_loop (p : platform) (i : nat) (file_info : list (string * Z))
  (w : world) : world :=
  match file_info with
  | [] => w
  | (old_name, _) :: rest =>
      rename_loop p (S i) rest (rename_step p i old_name w)
  end.

Definition is_empty {A : Type} (l : list A) : bool :=
  match l with [] => true | _ => false end.

Definition no_jpg_msg : string := "No JPG files found in current directory".

Definition nothing_to_rename_msg : string :=
  "No files to rename (all files already renamed or no valid files)".

Definition summary (n : nat) : string :=
  nl ++ "Renamed " ++ Py.str n ++ " files successfully".

Definition rename_images_by_age (p : platform) (w : world) : outcome :=
  let jpg_files := jpg_files p (fs w) in
  if is_empty jpg_files then Returned (print w no_jpg_msg)
  else
    match collect p (fs w) jpg_files [] with
    | inl e => Uncaught e w
    | inr file_info =>
        if is_empty file_info then Returned (print w nothing_to_rename_msg)
        else
          let file_info := sort_newest_first file_info in
          let w := rename_loop p 0 file_info w in
          Returned (print w (summary (List.length file_info)))
    end.

(** The names the script takes as rename sources: the first components of
    [file_info] before sorting, duplicates included. *)
Definition candidates (p : platform) (d : directory) : list string :=
  filter (fun file => negb (Py.startswith file "0")) (jpg_files p d).

(** The modification time [os.path.getmtime] reads for a listed name. *)
Definition mtime_of (p : platform) (d : directory) (n : string) : Z :=
  match lookup p d n with
  | Some e => e_mtime e
  | None => 0%Z
  end.

(** [file_info] as the loop of lines 14-18 leaves it, and after line 25. *)
Definition file_info (p : platform) (d : directory) : list (string * Z) :=
  map (fun n => (n, mtime_of p d n)) (candidates p d).

Definition ranked (p : platform) (d : directory) : list (string * Z) :=
  sort_newest_first (file_info p d).

(** The position at which a name first occurs. *)
Fixpoint index_of (x : string) (l : list string) : option nat :=
  match l with
  | [] => None
  | y :: l' =>
      if String.eqb y x then Some 0 else option_map S (index_of x l')
  end.

(** The rank of a candidate: where its name first occurs in the sorted
    [file_info]. *)
Definition rank (p : platform) (d : directory) (n : string) : option nat :=
  index_of n (map fst (ranked p d)).

(** An entry once the sources [pre] have been renamed, each to the name of
    its first position in [pre]. *)
Definition renamed (pre : list string) (e : entry) : entry :=
  match index_of (e_name e) pre with
  | Some j => with_name (new_name j) e
  | None => e
  end.

Definition stage (pre : list string) (d : directory) : directory :=
  map (renamed pre) d.

(** Sample entries: an ordinary file, and one the system refuses to move. *)
Definition jpg (name : string) (mtime : Z) : entry :=
  mkEntry name mtime ("data of " ++ name) false.

Definition jpg_protected (name : string) (mtime : Z) : entry :=
  mkEntry name mtime ("data of " ++ name) true.

(** No entry of [d] bears one of the first [n] target names. *)
Definition fresh_targets (p : platform) (n : nat) (d : directory) : Prop :=
  forall j, j < n -> ~ In (new_name j) (keys p d).

(** The same, decided: none of the target names the run computes, one per
    element of [file_info], exists in the directory. *)
Definition targets_free (p : platform) (d : directory) : bool :=
  forallb (fun j => negb (path_exists p d (new_name j)))
          (seq 0 (List.length (candidates p d))).

(** The system refuses to move none of the candidates. *)
Definition none_protected (p : platform) (d : directory) : bool :=
  forallb (fun n => match lookup p d n with
                    | Some e => negb (e_protected e)
                    | None => true
                    end)
          (candidates p d).

(** Two candidates with one modification time are one file. *)
Definition distinct_mtimes (p : platform) (d : directory) : bool :=
  forallb (fun a =>
             forallb (fun b => implb (mtime_of p d a =? mtime_of p d b)%Z
                                     (String.eqb a b))
                     (candidates p d))
          (candidates p d).

(** The world a run ends in. *)
Definition world_of (o : outcome) : world :=
  match o with
  | Returned w => w
  | Uncaught _ w => w
  end.

(** Many files, the one numbered [k] modified at time [k]. *)
Definition many (n : nat) : directory :=
  map (fun k => jpg ("img" ++ Py.str k ++ ".jpg") (Z.of_nat k)) (seq 0 n).

(** The selection rule as the specification words it: the name ends, case
    ignored, in [.jpg] or [.jpeg] and does not start with the digit 0. *)
Definition spec_candidate (name : string) : bool :=
  (Py.endswith (Py.lower name) ".jpg" || Py.endswith (Py.lower name) ".jpeg")
  && negb (Py.startswith name "0").

(** The selection rule of the code, by suffix: the glob patterns give the
    four spellings on POSIX and fold case on Windows, and [glob] leaves
    hidden names out. *)
Definition selects (p : platform) (name : string) : bool :=
  negb (ishidden name)
  && negb (Py.startswith name "0")
  && match p with
     | Posix =>
         Py.endswith name ".jpg" || Py.endswith name ".JPG"
         || Py.endswith name ".jpeg" || Py.endswith name ".JPEG"
     | Windows =>
         Py.endswith (normcase Windows name) ".jpg"
         || Py.endswith (normcase Windows name) ".jpeg"
     end.

End rename_by_age.

(** ** pictures/rename_by_age.py in a directory with symbolic links

    A directory can hold a symbolic link whose target is gone.  The
    listing shows it and [os.rename] moves or replaces it like any entry,
    but [os.path.exists] and [os.path.getmtime] follow links and do not
    find it.  The script is given again over such directories; on a
    directory without such links it is the script of [rename_by_age]. *)

Module Links.
Import OS.

(** An entry, and whether it is a symbolic link whose target is gone. *)
Record lentry := mkLentry {
  l_entry : entry;
  l_dangling : bool
}.

Definition ldirectory := list lentry.

(** The entries as a listing shows them. *)
Definition listing (d : ldirectory) : directory := map l_entry d.



Fixpoint lookup (p : platform) (d : ldirectory) (n : string) : option lentry :=
  match d with
  | [] => None
  | e :: d' =>
      if same_name p (e_name (l_entry e)) n then Some e else lookup p d' n
  end.

(** [os.path.lexists]: the name is in the directory. *)
Definition lexists (p : platform) (d : ldirectory) (n : string) : bool :=
  match lookup p d n with Some _ => true | None => false end.

(** [os.path.exists]: it follows links, and returns [False] for a link
    whose target is gone. *)
Definition path_exists (p : platform) (d : ldirectory) (n : string) : bool :=
  match lookup p d n with
  | Some e => negb (l_dangling e)
  | None => false
  end.

(** [os.path.getmtime]: it follows links, and raises for a link whose
    target is gone. *)
Definition getmtime (p : platform) (d : ldirectory) (n : string) : exn + Z :=
  match lookup p d n with
  | Some e =>
      if l_dangling e then inl (FileNotFoundError n None)
      else inr (e_mtime (l_entry e))
  | None => inl (FileNotFoundError n None)
  end.

(** Give the entry called [old] the name [new], in place. *)
Fixpoint move (p : platform) (d : ldirectory) (old new : string) : ldirectory :=
  match d with
  | [] => []
  | e :: d' =>
      if same_name p (e_name (l_entry e)) old
      then mkLentry (with_name new (l_entry e)) (l_dangling e) :: d'
      else e :: move p d' old new
  end.

(** Drop the entry called [n]. *)
Fixpoint unlink (p : platform) (d : ldirectory) (n : string) : ldirectory :=
  match d with
  | [] => []
  | e :: d' =>
      if same_name p (e_name (l_entry e)) n then d' else e :: unlink p d' n
  end.

(** [os.rename(old, new)]: it acts on the entries themselves, links
    included.  When [new] is the name of another entry, POSIX replaces
    that entry silently and Windows raises [FileExistsError]. *)
Definition rename (p : platform) (d : ldirectory) (old new : string)
  : exn + ldirectory :=
  match lookup p d old with
  | None => inl (FileNotFoundError old (Some new))
  | Some e =>
      if e_protected (l_entry e) then inl (PermissionError old (Some new))
      else if same_name p old new then inr (move p d old new)
      else if lexists p d new then
        match p with
        | Windows => inl (FileExistsError old (Some new))
        | Posix => inr (move p (unlink p d new) old new)
        end
      else inr (move p d old new)
  end.

Record world := mkWorld {
  fs : ldirectory;
  stdout : list string;
  renames : list (string * string)
}.

Definition initial (d : ldirectory) : world := mkWorld d [] [].

(** [print(line)] *)
Definition print (w : world) (line : string) : world :=
  mkWorld (fs w) (stdout w ++ [line]) (renames w).

Inductive outcome :=
| Returned (w : world)
| Uncaught (e : exn) (w : world).

(** Line 7: [glob] reads the names of the listing. *)
Definition jpg_files (p : platform) (d : ldirectory) : list string :=
  rename_by_age.jpg_files p (listing d).

(** Lines 14-18 *)
Fixpoint collect (p : platform) (d : ldirectory) (files : list string)
  (file_info : list (string * Z)) : exn + list (string * Z) :=
  match files with
  | [] => inr file_info
  | file :: rest =>
      if negb (Py.startswith file "0") then
        match getmtime p d file with
        | inl e => inl e
        | inr mtime => collect p d rest (file_info ++ [(file, mtime)])
        end
      else collect p d rest file_info
  end.

(** Lines 29-40 *)
Definition rename_step (p : platform) (i : nat) (old_name : string)
  (w : world) : world :=
  let new_name := rename_by_age.new_name i in
  if path_exists p (fs w) new_name then
    print w ("Warning: " ++ new_name ++ " already exists, skipping " ++ old_name)
  else
    let w := mkWorld (fs w) (stdout w) (renames w ++ [(old_name, new_name)]) in
    match rename p (fs w) old_name new_name with
    | inr d' =>
        print (mkWorld d' (stdout w) (renames w))
              ("Renamed: " ++ old_name ++ " -> " ++ new_name)
    | inl e =>
        print w ("Error renaming " ++ old_name ++ ": " ++ exn_str p e)
    end.

(** Line 28 *)
Fixpoint rename_loop (p : platform) (i : nat) (file_info : list (string * Z))
  (w : world) : world :=
  match file_info with
  | [] => w
  | (old_name, _) :: rest =>
      rename_loop p (S i) rest (rename_step p i old_name w)
  end.

Definition rename_images_by_age (p : platform) (w : world) : outcome :=
  let jpg_files := jpg_files p (fs w) in
  if rename_by_age.is_empty jpg_files then
    Returned (print w "No JPG files found in current directory")
  else
    match collect p (fs w) jpg_files [] with
    | inl e => Uncaught e w
    | inr file_info =>
        if rename_by_age.is_empty file_info then
          Returned
            (print w "No files to rename (all files already renamed or no valid files)")
        else
          let file_info := rename_by_age.sort_newest_first file_info in
          let w := rename_loop p 0 file_info w in
          Returned
            (print w (rename_by_age.nl ++ "Renamed "
                      ++ Py.str (List.length file_info) ++ " files successfully"))
    end.

(** The names the script takes as rename sources, and [file_info] after
    line 25, read from the listing. *)
Definition candidates (p : platform) (d : ldirectory) : list string :=
  rename_by_age.candidates p (listing d).

Definition ranked (p : platform) (d : ldirectory) : list (string * Z) :=
  rename_by_age.ranked p (listing d).


(** The world a run ends in. *)
Definition world_of (o : outcome) : world :=
  match o with
  | Returned w => w
  | Uncaught _ w => w
  end.

(** Sample entries: a file, and a link whose target is gone. *)
Definition file (name : string) (mtime : Z) : lentry :=
  mkLentry (rename_by_age.jpg name mtime) false.

Definition dangling (name : string) : lentry :=
  mkLentry (mkEntry name 0 "" false) true.

End Links.


(** ** Processes: console, exceptions, subprocesses

    The launchers print, read the keyboard, start [node] and leave through
    [sys.exit] or an exception.  A computation threads the console state
    and ends in a value or in a raised exception; the state survives the
    exception, as it does in Python. *)

Module Proc.
Import OS.

Inductive pyexn :=
| SystemExit (code : Z)
| KeyboardInterrupt
| EOFError
| ValueError
| CalledProcessError
| FileNotFound
| OtherError (msg : string).

(** [isinstance(e, Exception)]: [SystemExit] and [KeyboardInterrupt] derive
    from [BaseException] only. *)
Definition is_Exception (e : pyexn) : bool :=
  match e with
  | SystemExit _ | KeyboardInterrupt => false
  | _ => true
  end.

(** [str(e)]: for an [OtherError] the text it carries; for the others an
    abridged text (Python's text also names the file, the command or the
    literal concerned). *)
Definition exn_text (e : pyexn) : string :=
  match e with
  | SystemExit c => ""
  | KeyboardInterrupt => ""
  | EOFError => "EOF when reading a line"
  | ValueError => "invalid literal for int() with base 10"
  | CalledProcessError => "Command returned non-zero exit status"
  | FileNotFound => "[Errno 2] No such file or directory"
  | OtherError msg => msg
  end.

(** What the keyboard gives to one [input()]. *)
Inductive key := Line (s : string) | Eof | CtrlC.

Record state := mkState {
  stdin : list key;
  stdout : list string;
  calls : list (list string)
}.

Definition M (A : Type) : Type := state -> (pyexn + A) * state.

Definition ret {A} (a : A) : M A := fun s => (inr a, s).

Definition bind {A B} (m : M A) (k : A -> M B) : M B :=
  fun s =>
    match m s with
    | (inl e, s') => (inl e, s')
    | (inr a, s') => k a s'
    end.

Definition raise {A} (e : pyexn) : M A := fun s => (inl e, s).

(** [try: m  except ...: handler e]; [handler e = None] when no clause
    matches [e], and the exception goes on. *)
Definition try_except {A} (m : M A) (handler : pyexn -> option (M A)) : M A :=
  fun s =>
    match m s with
    | (inl e, s') =>
        match handler e with
        | Some h => h s'
        | None => (inl e, s')
        end
    | r => r
    end.

Declare Scope proc_scope.
Delimit Scope proc_scope with proc.
Notation "x <- m ;; k" := (bind m (fun x => k))
  (at level 61, m at next level, right associativity) : proc_scope.
Notation "m ;; k" := (bind m (fun _ => k))
  (at level 61, right associativity) : proc_scope.

Definition print (line : string) : M unit :=
  fun s => (inr tt, mkState (stdin s) (stdout s ++ [line]) (calls s)).

(** [input(prompt)]: the prompt is written, then one [key] is consumed; the
    end of the input is [EOFError]. *)
Definition input (prompt : string) : M string :=
  fun s =>
    let out := stdout s ++ [prompt] in
    match stdin s with
    | [] => (inl EOFError, mkState [] out (calls s))
    | Line l :: rest => (inr l, mkState rest out (calls s))
    | Eof :: rest => (inl EOFError, mkState rest out (calls s))
    | CtrlC :: rest => (inl KeyboardInterrupt, mkState rest out (calls s))
    end.

(** [sys.exit(code)] *)
Definition sys_exit {A} (code : Z) : M A := raise (SystemExit code).

(** [when c m]: [if c: m] *)
Definition when (c : bool) (m : M unit) : M unit := if c then m else ret tt.

(** The surroundings of a launcher. *)
Record env := mkEnv {
  plat : platform;
  (** [sys.stdin.isatty()] *)
  isatty : bool;
  (** [subprocess.run(["node", "--version"], check=True, ...)]: the
      exception it raises, if any *)
  node_version : option pyexn;
  (** [os.path.exists] *)
  exists_file : string -> bool;
  (** the directory [stories], when there is one *)
  stories_dir : option directory;
  (** what running a command does: its return code, or the exception that
      [subprocess.call] or [subprocess.run] raises *)
  node : list string -> pyexn + Z;
  (** what writing [temp_generator.js] does: the exception, if any *)
  write_temp : option pyexn;
  (** [datetime.fromtimestamp(t).strftime("%Y-%m-%d %H:%M:%S")] *)
  strftime : Z -> string
}.

(** [subprocess.call(cmd)] and [subprocess.run(cmd).returncode] *)
Definition subprocess_call (E : env) (cmd : list string) : M Z :=
  fun s =>
    let s' := mkState (stdin s) (stdout s) (calls s ++ [cmd]) in
    match node E cmd with
    | inl e => (inl e, s')
    | inr code => (inr code, s')
    end.

(** The node check all three launchers start with. *)
Definition run_node_version (E : env) : M unit :=
  match node_version E with
  | Some e => raise e
  | None => ret tt
  end.

Definition win_tty (E : env) : bool := (is_win (plat E) && isatty E)%bool.

(** [str(Path("stories") / name)] *)
Definition story_path (E : env) (e : entry) : string :=
  match plat E with
  | Posix => "stories/" ++ e_name e
  | Windows => "stories\" ++ e_name e
  end.

(** [m] launches only commands that satisfy [P], and the values it
    returns satisfy [Q]. *)
Definition launches {A} (P : list string -> Prop) (Q : A -> Prop) (m : M A)
  : Prop :=
  forall s,
  exists extra,
    calls (snd (m s)) = calls s ++ extra
    /\ Forall P extra
    /\ (forall a, fst (m s) = inr a -> Q a).

(** [m] always returns a value. *)
Definition returns {A} (m : M A) : Prop :=
  forall s, exists a, fst (m s) = inr a.

(** The command plays a story file and the interpreter came back with an
    exit status. *)
Definition played (E : env) (cmd : list string) : Prop :=
  exists f code,
    cmd = ["node"; "run_story.js"; f] /\ node E cmd = inr code.

(** Once [m] has played a story and the interpreter has come back, [m]
    returns. *)
Definition ends_well {A} (E : env) (m : M A) : Prop :=
  forall s,
  exists extra,
    calls (snd (m s)) = calls s ++ extra
    /\ (Exists (played E) extra -> exists a, fst (m s) = inr a).

(** A sample setting: node is installed, every companion file exists,
    [stories] holds three stories, and the interpreter ends with status
    [code] whatever it is asked to run. *)
Definition sample_stories : directory :=
  [mkEntry "a.json" 5 "story a" false;
   mkEntry "b.json" 9 "story b" false;
   mkEntry "c.json" 1 "story c" false].

Definition sample_env (p : platform) (code : Z) : env :=
  mkEnv p true None (fun _ => true) (Some sample_stories)
        (fun _ => inr code) None (fun _ => "2025-01-01 00:00:00").

(** How the process ends. *)
Inductive ending :=
| Exit (code : Z)
| Traceback (e : pyexn).

(** Running [main()] as the script does: returning is exit status 0,
    [SystemExit] carries the status, anything else is a traceback. *)
Definition run_script (main : M unit) (keys : list key) : ending * state :=
  match main (mkState keys [] []) with
  | (inr _, s) => (Exit 0, s)
  | (inl (SystemExit c), s) => (Exit c, s)
  | (inl e, s) => (Traceback e, s)
  end.

End Proc.

(** ** play_story_choice.py *)

Module play_story_choice.
Import OS Proc.
Local Open Scope proc_scope.

Definition get_all_stories (E : env) : list entry :=
  match stories_dir E with
  | None => []
  | Some d =>
      let story_files := path_glob (plat E) d "*.json" in
      if rename_by_age.is_empty story_files then []
      else Py.sorted_reverse e_mtime story_files
  end.

Definition format_file_time (E : env) (file_path : entry) : string :=
  strftime E (e_mtime file_path).

(** Line 73: [stories[:-1] if len(stories) > 1 else stories] *)
Definition available_stories (stories : list entry) : list entry :=
  if (1 <? List.length stories)%nat then removelast stories else stories.

(** Lines 81-85 *)
Fixpoint display (E : env) (i : nat) (l : list entry) : M unit :=
  match l with
  | [] => ret tt
  | story :: rest =>
      let age_info :=
        if (i =? 1)%nat then "Latest" else (Py.str i ++ " newest")%string in
      print ("[" ++ Py.str i ++ "] " ++ e_name story) ;;
      print ("    Created: " ++ format_file_time E story
             ++ " (" ++ age_info ++ ")") ;;
      print "" ;;
      display E (S i) rest
  end.

(** [available_stories[choice_num - 1]] for [1 <= choice_num <= len] *)
Definition pick (available : list entry) (choice_num : Z) : option entry :=
  if ((1 <=? choice_num) && (choice_num <=? Z.of_nat (List.length available)))%Z
  then nth_error available (Z.to_nat (choice_num - 1))
  else None.

Definition goodbye (s : state) : (pyexn + entry) * state :=
  (print (rename_by_age.nl ++ "👋 Goodbye!") ;; sys_exit 0) s.

(** Lines 88-101: the [while True] loop.  Every round consumes one [key],
    so the loop is a recursion on the keys that are left. *)
Fixpoint choose_from (available : list entry) (keys : list key) (s : state)
  : (pyexn + entry) * state :=
  let prompt :=
    ("📝 Choose story (1-" ++ Py.str (List.length available) ++ "): ")%string in
  let out := stdout s ++ [prompt] in
  match keys with
  | [] => goodbye (mkState [] out (calls s))
  | Eof :: rest => goodbye (mkState rest out (calls s))
  | CtrlC :: rest => goodbye (mkState rest out (calls s))
  | Line l :: rest =>
      let s1 := mkState rest out (calls s) in
      let choice := Py.strip l in
      match Py.parse_int choice with
      | None =>
          choose_from available rest
            (snd (print "❌ Please enter a valid number" s1))
      | Some choice_num =>
          match pick available choice_num with
          | Some selected_story => (inr selected_story, s1)
          | None =>
              choose_from available rest
                (snd (print ("❌ Please enter a number between 1 and "
                             ++ Py.str (List.length available)) s1))
          end
      end
  end.

Definition choose (available : list entry) : M entry :=
  fun s => choose_from available (stdin s) s.

(** Lines 108-129, shared in shape with [play_latest.py]. *)
Definition close_prompt (E : env) (prompt : string) : M unit :=
  when (win_tty E)
    (try_except (input prompt ;; ret tt)
       (fun e => match e with
                 | EOFError | KeyboardInterrupt => Some (ret tt)
                 | _ => None
                 end)).

Definition main (E : env) : M unit :=
  print "🎮 STORY SELECTOR" ;;
  print (Py.times "=" 50) ;;
  try_except
    (run_node_version E ;; print "✅ Node.js is ready")
    (fun e => match e with
              | CalledProcessError | FileNotFound =>
                  Some (print "❌ Error: Node.js is required but not found" ;;
                        input "Press Enter to exit..." ;;
                        sys_exit 1)
              | _ => None
              end) ;;
  let stories := get_all_stories E in
  (if rename_by_age.is_empty stories then
     print "❌ No story files found in stories/ directory" ;;
     input "Press Enter to exit..." ;;
     sys_exit 1
   else ret tt) ;;
  print (rename_by_age.nl ++ "📚 Found " ++ Py.str (List.length stories)
         ++ " stories:") ;;
  print (Py.times "-" 50) ;;
  let available_stories := available_stories stories in
  (if rename_by_age.is_empty available_stories then
     print "❌ Only one story found (the oldest). Generate more stories first." ;;
     input "Press Enter to exit..." ;;
     sys_exit 1
   else ret tt) ;;
  display E 1 available_stories ;;
  selected_story <- choose available_stories ;;
  print (rename_by_age.nl ++ "🎮 Playing: " ++ e_name selected_story) ;;
  print (Py.times "=" 50) ;;
  print "" ;;
  try_except
    (let cmd := ["node"; "run_story.js"; story_path E selected_story] in
     result <- subprocess_call E cmd ;;
     print (rename_by_age.nl ++ Py.times "=" 50) ;;
     print "🎮 Game session ended." ;;
     close_prompt E "Press Enter to close...")
    (fun e =>
       match e with
       | KeyboardInterrupt =>
           Some (print (rename_by_age.nl ++ rename_by_age.nl
                        ++ "👋 Story interrupted by user. Goodbye!"))
       | _ =>
           if is_Exception e then
             Some (print ("❌ Error running story: " ++ exn_text e) ;;
                   close_prompt E (rename_by_age.nl ++ "Press Enter to close..."))
           else None
       end).

(** The stories the user can end up playing. *)
Definition selectable (E : env) : list entry :=
  available_stories (get_all_stories E).



End play_story_choice.

(** ** play_latest.py *)

Module play_latest.
Import OS Proc.
Local Open Scope proc_scope.

Definition find_latest_story (E : env) : option entry :=
  match stories_dir E with
  | None => None
  | Some d =>
      match path_glob (plat E) d "*.json" with
      | [] => None
      | x :: rest => Some (Py.max_by e_mtime x rest)
      end
  end.

Definition required_files : list string := ["run_story.js"; "StorySystem.js"].

Definition main (E : env) : M unit :=
  print "🎮 LATEST STORY PLAYER" ;;
  print (Py.times "=" 40) ;;
  try_except
    (run_node_version E ;; print "✅ Node.js is ready")
    (fun e => match e with
              | CalledProcessError | FileNotFound =>
                  Some (print "❌ Error: Node.js is required but not found" ;;
                        print "Please install Node.js: https://nodejs.org/" ;;
                        input "Press Enter to exit..." ;;
                        sys_exit 1)
              | _ => None
              end) ;;
  let missing_files :=
    filter (fun f => negb (exists_file E f)) required_files in
  (if negb (rename_by_age.is_empty missing_files) then
     print ("❌ Error: Missing required files: " ++ Py.join ", " missing_files) ;;
     input "Press Enter to exit..." ;;
     sys_exit 1
   else ret tt) ;;
  match find_latest_story E with
  | None =>
      print "❌ No story files found in stories/ directory" ;;
      print "Generate a story first using generate_story.bat or run.py --generate" ;;
      input "Press Enter to exit..." ;;
      sys_exit 1
  | Some story_file =>
      print ("🎮 Playing latest story: " ++ e_name story_file) ;;
      print (Py.times "=" 40) ;;
      print "" ;;
      try_except
        (let cmd := ["node"; "run_story.js"; story_path E story_file] in
         print ("🚀 Running: " ++ Py.join " " cmd) ;;
         print (Py.times "=" 50) ;;
         print "" ;;
         result <- subprocess_call E cmd ;;
         print (rename_by_age.nl ++ Py.times "=" 50) ;;
         print "🎮 Game session ended." ;;
         play_story_choice.close_prompt E "Press Enter to close...")
        (fun e =>
           match e with
           | KeyboardInterrupt =>
               Some (print (rename_by_age.nl ++ rename_by_age.nl
                            ++ "👋 Story interrupted by user. Goodbye!"))
           | _ =>
               if is_Exception e then
                 Some (print ("❌ Error running story: " ++ exn_text e) ;;
                       play_story_choice.close_prompt E
                         (rename_by_age.nl ++ "Press Enter to close..."))
               else None
           end)
  end.

End play_latest.

(** ** run.py *)

Module run.
Import OS Proc.
Local Open Scope proc_scope.

(** The parsed command line: [args.story_file] and [args.generate]. *)
Record args := mkArgs {
  story_file : option string;
  generate : option Z
}.

Definition find_latest_story (E : env) : option entry :=
  match stories_dir E with
  | None => None
  | Some d =>
      match path_glob (plat E) d "*.json" with
      | [] => None
      | x :: rest => Some (Py.max_by e_mtime x rest)
      end
  end.

(** Lines 37-150.  The spinner thread only redraws a status line; what it
    writes is left out.  Writing the temporary script and running it are
    the two calls that can raise inside the [try]. *)
Definition generate_new_story (E : env) (min_pages : Z) : M bool :=
  try_except
    (match write_temp E with
     | Some e => raise e
     | None => ret tt
     end ;;
     print "🚀 Running story generator..." ;;
     returncode <- subprocess_call E ["node"; "temp_generator.js"] ;;
     if (returncode =? 0)%Z then
       print "✅ Story generation completed successfully!" ;;
       ret true
     else
       print ("❌ Story generation failed with exit code: "
              ++ Py.str_int returncode) ;;
       ret false)
    (fun e =>
       if is_Exception e then
         Some (print ("❌ Error generating story: " ++ exn_text e) ;;
               ret false)
       else None).

Definition required_files : list string :=
  ["run_story.js"; "StoryGenerator.js"; "StorySystem.js"].

(** A string is true when it is not empty. *)
Definition truthy (s : option string) : option string :=
  match s with
  | Some EmptyString => None
  | other => other
  end.

Definition pause (E : env) (prompt : string) : M unit :=
  play_story_choice.close_prompt E prompt.

(** Lines 205-219: the story file to use, as [str(story_file)]. *)
Definition determine_story (E : env) (a : args) : M string :=
  match truthy (story_file a) with
  | Some story_file =>
      if negb (exists_file E story_file) then
        print ("❌ Error: Story file '" ++ story_file ++ "' not found") ;;
        sys_exit 1
      else ret story_file
  | None =>
      match find_latest_story E with
      | None =>
          print "❌ No story files found in stories/ directory" ;;
          print "Generate a story first or provide a story file path" ;;
          sys_exit 1
      | Some story_file =>
          print ("🎮 Using latest story: " ++ story_path E story_file) ;;
          ret (story_path E story_file)
      end
  end.

(** Lines 222-256 *)
Definition run_app (E : env) (story_file : string) : M unit :=
  try_except
    (let cmd := ["node"; "run_story.js"; story_file] in
     print ("🚀 Running: " ++ Py.join " " cmd) ;;
     print (Py.times "=" 50) ;;
     print "" ;;
     result <- subprocess_call E cmd ;;
     when (win_tty E)
       (try_except
          (print (rename_by_age.nl ++ Py.times "=" 50) ;;
           print "🎮 Game session ended." ;;
           input "Press Enter to close..." ;;
           ret tt)
          (fun e => match e with
                    | EOFError | KeyboardInterrupt => Some (ret tt)
                    | _ => None
                    end)))
    (fun e =>
       match e with
       | KeyboardInterrupt =>
           Some (print (rename_by_age.nl ++ rename_by_age.nl
                        ++ "👋 Story interrupted by user. Goodbye!"))
       | _ =>
           if is_Exception e then
             Some (print ("❌ Error running app: " ++ exn_text e) ;;
                   pause E (rename_by_age.nl ++ "Press Enter to close...") ;;
                   sys_exit 1)
           else None
       end).

Definition main (E : env) (a : args) : M unit :=
  try_except
    (run_node_version E)
    (fun e => match e with
              | CalledProcessError | FileNotFound =>
                  Some (print "❌ Error: Node.js is required but not found" ;;
                        print "Please install Node.js: https://nodejs.org/" ;;
                        sys_exit 1)
              | _ => None
              end) ;;
  let missing_files :=
    filter (fun f => negb (exists_file E f)) required_files in
  (if negb (rename_by_age.is_empty missing_files) then
     print ("❌ Error: Missing required files: " ++ Py.join ", " missing_files) ;;
     sys_exit 1
   else ret tt) ;;
  match generate a with
  | Some g =>
      let min_pages := if (0 <? g)%Z then g else 50%Z in
      ok <- generate_new_story E min_pages ;;
      (if negb ok then
         print "❌ Story generation failed. Exiting." ;;
         sys_exit 1
       else ret tt) ;;
      print (rename_by_age.nl ++ Py.times "=" 50) ;;
      print "✅ Story generation complete!" ;;
      print (Py.times "=" 50) ;;
      print "🎮 To play the story, run one of these:" ;;
      print "   • Double-click: play_story.cmd" ;;
      print "   • Command line: node run_story.js" ;;
      print "   • Python: python run.py (without --generate)" ;;
      print (Py.times "=" 50) ;;
      pause E (rename_by_age.nl ++ "Press Enter to continue...")
  | None =>
      story_file <- determine_story E a ;;
      run_app E story_file
  end.

End run.

(** * Properties *)

(** ** Decimal formatting *)

Module Py_facts.
Import Py.

Lemma startswith_zero (s : string) :
  startswith s "0" = match s with
                     | String c _ => Ascii.eqb c "0"
                     | EmptyString => false
                     end.
Proof.
  unfold startswith. destruct s as [|c s]; [reflexivity|].
  cbn [String.prefix]. destruct (ascii_dec "0" c) as [<-|Hne].
  - destruct s; reflexivity.
  - symmetry. apply Ascii.eqb_neq. congruence.
Qed.

Lemma digit_value (d : nat) : d < 10 -> nat_of_ascii (digit d) - 48 = d.
Proof.
  intros Hd. unfold digit. rewrite nat_ascii_embedding by lia. lia.
Qed.

Lemma digit_nonzero (d : nat) : 0 < d < 10 -> digit d <> "0"%char.
Proof.
  intros Hd Heq. apply (f_equal nat_of_ascii) in Heq.
  unfold digit in Heq. rewrite nat_ascii_embedding in Heq by lia.
  change (nat_of_ascii "0") with 48 in Heq. lia.
Qed.

Lemma int_from_app (s1 s2 : string) :
  forall acc, int_from acc (s1 ++ s2) = int_from (int_from acc s1) s2.
Proof.
  induction s1 as [|c s1 IH]; intros acc; simpl; [reflexivity|apply IH].
Qed.

Lemma int_from_zeros (k : nat) (s : string) :
  int_from 0 (zeros k ++ s) = int_from 0 s.
Proof.
  induction k as [|k IH]; simpl; [reflexivity|exact IH].
Qed.

(** Reading back the digits of [n] gives [n]. *)
Lemma int_from_digits (fuel : nat) :
  forall n acc, n < fuel -> int_from 0 (digits fuel n acc) = int_from n acc.
Proof.
  induction fuel as [|fuel IH]; intros n acc Hn; [lia|].
  cbn [digits]. destruct (Nat.ltb_spec n 10) as [Hlt|Hge].
  - cbn [int_from]. rewrite digit_value by assumption.
    f_equal; lia.
  - assert (Hq : n / 10 < n) by (apply Nat.div_lt; lia).
    rewrite IH by lia. cbn [int_from].
    rewrite digit_value by (apply Nat.mod_upper_bound; lia).
    pose proof (Nat.div_mod_eq n 10). f_equal; lia.
Qed.

Lemma int_str (n : nat) : int (str n) = n.
Proof. unfold int, str. rewrite int_from_digits by lia. reflexivity. Qed.

Lemma int_fmt04d (i : nat) : int (fmt04d i) = i.
Proof.
  unfold int, fmt04d, zfill. rewrite int_from_zeros. apply int_str.
Qed.

(** The first digit of a positive number is not a zero, and no digit is
    lost in front of [acc]. *)
Lemma digits_head (fuel : nat) :
  forall n acc, n < fuel -> 0 < n ->
    exists c rest, digits fuel n acc = String c rest
                   /\ c <> "0"%char
                   /\ String.length acc <= String.length rest.
Proof.
  induction fuel as [|fuel IH]; intros n acc Hn Hpos; [lia|].
  cbn [digits]. destruct (Nat.ltb_spec n 10) as [Hlt|Hge].
  - exists (digit n), acc. split; [reflexivity|].
    split; [apply digit_nonzero; lia|lia].
  - assert (Hq : n / 10 < n) by (apply Nat.div_lt; lia).
    assert (Hq0 : 0 < n / 10) by (apply Nat.div_str_pos; lia).
    destruct (IH (n / 10) (String (digit (n mod 10)) acc)) as (c & rest & E & Hc & Hl);
      [lia|lia|].
    exists c, rest. split; [exact E|]. split; [exact Hc|].
    cbn [String.length] in Hl. lia.
Qed.

Lemma digits_length (fuel : nat) :
  forall k n acc, n < fuel -> 10 ^ k <= n ->
    k + 1 + String.length acc <= String.length (digits fuel n acc).
Proof.
  induction fuel as [|fuel IH]; intros k n acc Hn Hk; [lia|].
  cbn [digits]. destruct (Nat.ltb_spec n 10) as [Hlt|Hge].
  - destruct k as [|k]; [cbn [String.length]; lia|].
    exfalso. assert (H1 : 10 ^ 1 <= 10 ^ S k) by (apply Nat.pow_le_mono_r; lia).
    rewrite Nat.pow_1_r in H1. lia.
  - assert (Hq : n / 10 < n) by (apply Nat.div_lt; lia).
    destruct k as [|k].
    + assert (Hq0 : 10 ^ 0 <= n / 10).
      { rewrite Nat.pow_0_r. apply Nat.div_str_pos; lia. }
      specialize (IH 0 (n / 10) (String (digit (n mod 10)) acc)).
      cbn [String.length] in IH. lia.
    + assert (Hq0 : 10 ^ k <= n / 10).
      { apply Nat.div_le_lower_bound; [lia|]. rewrite Nat.pow_succ_r' in Hk. lia. }
      specialize (IH k (n / 10) (String (digit (n mod 10)) acc)).
      cbn [String.length] in IH. lia.
Qed.

(** From rank 1000 on the formatted rank does not begin with a zero. *)
Lemma fmt04d_large (i : nat) : 1000 <= i -> startswith (fmt04d i) "0" = false.
Proof.
  intros Hi. unfold fmt04d, zfill, str.
  assert (Hlen : 4 <= String.length (digits (S i) i "")).
  { pose proof (digits_length (S i) 3 i "") as H.
    change (10 ^ 3) with 1000 in H. cbn [String.length] in H. lia. }
  replace (4 - String.length (digits (S i) i "")) with 0 by lia.
  cbn [zeros append]. destruct (digits_head (S i) i "") as (c & rest & E & Hc & _); [lia|lia|].
  rewrite E, startswith_zero. apply Ascii.eqb_neq. exact Hc.
Qed.

(** Up to rank 999 it does. *)
Lemma fmt04d_small (i : nat) : i < 1000 -> startswith (fmt04d i) "0" = true.
Proof.
  intros Hi.
  assert (H : forallb (fun j => startswith (fmt04d j) "0") (seq 0 1000) = true)
    by (vm_compute; reflexivity).
  rewrite forallb_forall in H. apply H. apply in_seq. lia.
Qed.

End Py_facts.

(** ** Stable sorting, newest first *)

Module Sort_facts.
Import Py.

Section Sorting_facts.
Context {A : Type} (key : A -> Z).

Lemma insert_reverse_perm (x : A) (l : list A) :
  Permutation (insert_reverse key x l) (x :: l).
Proof.
  induction l as [|y l IH]; cbn [insert_reverse]; [reflexivity|].
  destruct (key y <=? key x)%Z; [reflexivity|].
  rewrite IH. apply perm_swap.
Qed.

Lemma sorted_reverse_perm (l : list A) : Permutation (sorted_reverse key l) l.
Proof.
  induction l as [|x l IH]; [reflexivity|].
  unfold sorted_reverse in *. cbn [fold_right].
  rewrite insert_reverse_perm. now apply perm_skip.
Qed.

Lemma sorted_reverse_length (l : list A) :
  List.length (sorted_reverse key l) = List.length l.
Proof. apply Permutation_length, sorted_reverse_perm. Qed.

Lemma sorted_reverse_In (l : list A) (x : A) :
  In x (sorted_reverse key l) <-> In x l.
Proof.
  split; apply Permutation_in;
    [apply sorted_reverse_perm | symmetry; apply sorted_reverse_perm].
Qed.

Lemma insert_reverse_sorted (x : A) (l : list A) :
  StronglySorted (newer_first key) l ->
  StronglySorted (newer_first key) (insert_reverse key x l).
Proof.
  induction 1 as [|y l Hl IH Hy]; cbn [insert_reverse].
  - constructor; constructor.
  - destruct (Z.leb_spec (key y) (key x)) as [Hle|Hgt].
    + constructor; [constructor; assumption|].
      constructor; [exact Hle|].
      rewrite Forall_forall in *. intros z Hz.
      specialize (Hy z Hz). unfold newer_first in *. lia.
    + constructor; [exact IH|].
      rewrite Forall_forall in *. intros z Hz.
      apply (Permutation_in _ (insert_reverse_perm x l)) in Hz.
      destruct Hz as [<-|Hz]; [unfold newer_first; lia|auto].
Qed.

Lemma sorted_reverse_sorted (l : list A) :
  StronglySorted (newer_first key) (sorted_reverse key l).
Proof.
  induction l as [|x l IH]; [constructor|].
  apply insert_reverse_sorted, IH.
Qed.

End Sorting_facts.

End Sort_facts.

(** ** File names and directories *)

Module OS_facts.
Import OS.

Lemma same_name_iff (p : platform) (a b : string) :
  same_name p a b = true <-> normcase p a = normcase p b.
Proof. unfold same_name. apply String.eqb_eq. Qed.

Lemma same_name_false_iff (p : platform) (a b : string) :
  same_name p a b = false <-> normcase p a <> normcase p b.
Proof. unfold same_name. apply String.eqb_neq. Qed.

Lemma lookup_Some (p : platform) (d : directory) (n : string) (e : entry) :
  lookup p d n = Some e ->
  In e d /\ normcase p (e_name e) = normcase p n.
Proof.
  induction d as [|e' d IH]; cbn [lookup]; [discriminate|].
  destruct (same_name p (e_name e') n) eqn:Hs.
  - intros [= <-]. split; [now left|]. now apply same_name_iff.
  - intros H. destruct (IH H). split; [now right|assumption].
Qed.

Lemma lookup_None (p : platform) (d : directory) (n : string) :
  lookup p d n = None <-> ~ In (normcase p n) (keys p d).
Proof.
  induction d as [|e d IH]; cbn [lookup keys map].
  - split; [intros _ []|reflexivity].
  - destruct (same_name p (e_name e) n) eqn:Hs.
    + apply same_name_iff in Hs. split; [discriminate|].
      intros H. exfalso. apply H. now left.
    + apply same_name_false_iff in Hs. rewrite IH. unfold keys.
      split; [intros H [E|Hin]; [congruence|auto]|intros H Hin; apply H; now right].
Qed.

Lemma path_exists_keys (p : platform) (d : directory) (n : string) :
  path_exists p d n = true <-> In (normcase p n) (keys p d).
Proof.
  unfold path_exists. destruct (lookup p d n) as [e|] eqn:Hl.
  - split; [intros _|reflexivity]. apply lookup_Some in Hl as [Hin <-].
    unfold keys. now apply (in_map (fun e => normcase p (e_name e))).
  - apply lookup_None in Hl. split; [discriminate|contradiction].
Qed.

Lemma path_exists_false (p : platform) (d : directory) (n : string) :
  path_exists p d n = false <-> ~ In (normcase p n) (keys p d).
Proof.
  rewrite <- path_exists_keys. destruct (path_exists p d n); split; intuition congruence.
Qed.

Lemma wf_NoDup (p : platform) (d : directory) :
  wf p d = true <-> NoDup (keys p d).
Proof.
  induction d as [|e d IH]; cbn [wf keys map].
  - split; [constructor|reflexivity].
  - rewrite andb_true_iff, negb_true_iff, path_exists_false, IH.
    split; [intros []; now constructor|intros H; now inversion H].
Qed.

(** In a well-formed directory a name as compared designates one entry. *)
Lemma keys_inj (p : platform) (d : directory) (e1 e2 : entry) :
  NoDup (keys p d) -> In e1 d -> In e2 d ->
  normcase p (e_name e1) = normcase p (e_name e2) -> e1 = e2.
Proof.
  induction d as [|e d IH]; intros Hnd H1 H2 Heq; [destruct H1|].
  cbn [keys map] in Hnd. inversion Hnd as [|k ks Hnin Hnd' E]; subst.
  destruct H1 as [<-|H1], H2 as [<-|H2].
  - reflexivity.
  - exfalso. apply Hnin. rewrite Heq.
    now apply (in_map (fun e => normcase p (e_name e))).
  - exfalso. apply Hnin. rewrite <- Heq.
    now apply (in_map (fun e => normcase p (e_name e))).
  - now apply IH.
Qed.




(** [os.rename] onto a name that does not exist: the source is missing or
    refused, or it is moved in place. *)
Lemma rename_fresh (p : platform) (d : directory) (old new : string) :
  path_exists p d new = false ->
  rename p d old new =
    match lookup p d old with
    | None => inl (FileNotFoundError old (Some new))
    | Some e =>
        if e_protected e then inl (PermissionError old (Some new))
        else inr (move p d old new)
    end.
Proof.
  intros Hnew. unfold rename. rewrite Hnew.
  destruct (lookup p d old) as [e|]; [|reflexivity].
  destruct (e_protected e); [reflexivity|].
  destruct (same_name p old new); reflexivity.
Qed.

End OS_facts.

(** ** Which names the globs select *)

Module Glob_facts.
Import OS rename_by_age.

Lemma fnmatch_literal (lit : string) :
  literal lit = true ->
  forall name, fnmatchcase_pat lit name = String.eqb name lit.
Proof.
  induction lit as [|c lit IH]; cbn [literal fnmatchcase_pat]; intros Hl name.
  - reflexivity.
  - apply andb_true_iff in Hl as [Hl Hlit].
    apply andb_true_iff in Hl as [Hs Hq].
    apply negb_true_iff in Hs, Hq. rewrite Hs, Hq.
    destruct name as [|a name]; [reflexivity|].
    cbn [String.eqb]. rewrite IH by assumption.
    rewrite (Ascii.eqb_sym c a). destruct (Ascii.eqb a c); reflexivity.
Qed.

Lemma fnmatch_star (suf : string) :
  literal suf = true ->
  forall name, fnmatchcase name (String "*" suf) = Py.endswith name suf.
Proof.
  intros Hl name. unfold fnmatchcase.
  change (fnmatchcase_pat (String "*" suf))
    with (fix star (name : string) : bool :=
            fnmatchcase_pat suf name ||
            match name with
            | EmptyString => false
            | String _ name' => star name'
            end).
  induction name as [|a name IH]; cbn [Py.endswith].
  - now rewrite fnmatch_literal.
  - rewrite IH. now rewrite fnmatch_literal.
Qed.

Lemma glob_In (p : platform) (d : directory) (pat name : string) :
  ishidden pat = false ->
  In name (glob p d pat) <->
  In name (listdir d) /\ ishidden name = false
  /\ fnmatchcase (normcase p name) (normcase p pat) = true.
Proof.
  intros Hp. unfold glob, fnmatch_filter. rewrite Hp.
  rewrite !filter_In, negb_true_iff. tauto.
Qed.

Lemma jpg_files_listed (p : platform) (d : directory) (name : string) :
  In name (jpg_files p d) -> In name (listdir d).
Proof.
  unfold jpg_files. rewrite !in_app_iff, !glob_In by reflexivity. tauto.
Qed.

Lemma candidates_In (p : platform) (d : directory) (name : string) :
  In name (candidates p d) <->
  In name (jpg_files p d) /\ Py.startswith name "0" = false.
Proof. unfold candidates. rewrite filter_In, negb_true_iff. tauto. Qed.

Lemma candidates_listed (p : platform) (d : directory) (name : string) :
  In name (candidates p d) -> In name (listdir d).
Proof. rewrite candidates_In. intros [H _]. eapply jpg_files_listed, H. Qed.

(** The globs of line 7 select by suffix. *)
Lemma jpg_files_In (p : platform) (d : directory) (name : string) :
  In name (jpg_files p d) <->
  In name (listdir d) /\ ishidden name = false
  /\ match p with
     | Posix =>
         Py.endswith name ".jpg" || Py.endswith name ".JPG"
         || Py.endswith name ".jpeg" || Py.endswith name ".JPEG"
     | Windows =>
         Py.endswith (normcase Windows name) ".jpg"
         || Py.endswith (normcase Windows name) ".jpeg"
     end = true.
Proof.
  unfold jpg_files. rewrite !in_app_iff, !glob_In by reflexivity.
  destruct p.
  - cbn [normcase]. rewrite !fnmatch_star by reflexivity.
    rewrite !orb_true_iff. tauto.
  - change (normcase Windows "*.jpg") with "*.jpg".
    change (normcase Windows "*.JPG") with "*.jpg".
    change (normcase Windows "*.jpeg") with "*.jpeg".
    change (normcase Windows "*.JPEG") with "*.jpeg".
    rewrite !fnmatch_star by reflexivity.
    rewrite !orb_true_iff. tauto.
Qed.

End Glob_facts.

(** ** The renamer, step by step *)

Module Renamer_facts.
Import OS OS_facts Glob_facts rename_by_age.

Lemma keys_listdir (p : platform) (d : directory) :
  keys p d = map (normcase p) (listdir d).
Proof. unfold keys, listdir. now rewrite map_map. Qed.

Lemma getmtime_listed (p : platform) (d : directory) (n : string) :
  In n (listdir d) -> getmtime p d n = inr (mtime_of p d n).
Proof.
  intros Hn. unfold getmtime, mtime_of.
  destruct (lookup p d n) eqn:Hl; [reflexivity|].
  apply lookup_None in Hl. exfalso. apply Hl.
  rewrite keys_listdir. now apply in_map.
Qed.

(** Reading the modification times never fails on names just listed. *)
Lemma collect_listed (p : platform) (d : directory) (files : list string) :
  (forall n, In n files -> In n (listdir d)) ->
  forall acc,
    collect p d files acc
    = inr (acc ++ map (fun n => (n, mtime_of p d n))
                      (filter (fun f => negb (Py.startswith f "0")) files)).
Proof.
  induction files as [|f files IH]; intros Hl acc; cbn [collect filter map].
  - now rewrite app_nil_r.
  - destruct (negb (Py.startswith f "0")); cbn [map].
    + rewrite getmtime_listed by (apply Hl; now left).
      rewrite IH by (intros n Hn; apply Hl; now right).
      now rewrite <- app_assoc.
    + apply IH. intros n Hn. apply Hl. now right.
Qed.

Lemma ranked_length (p : platform) (d : directory) :
  List.length (ranked p d) = List.length (candidates p d).
Proof.
  unfold ranked, sort_newest_first, file_info.
  now rewrite Sort_facts.sorted_reverse_length, length_map.
Qed.

Lemma ranked_names (p : platform) (d : directory) (n : string) :
  In n (map fst (ranked p d)) <-> In n (candidates p d).
Proof.
  unfold ranked, sort_newest_first, file_info. rewrite !in_map_iff. split.
  - intros ([n' m] & <- & H). apply Sort_facts.sorted_reverse_In in H.
    apply in_map_iff in H as (n0 & [= <- <-] & H). exact H.
  - intros H. exists (n, mtime_of p d n). split; [reflexivity|].
    apply Sort_facts.sorted_reverse_In. apply in_map_iff. now exists n.
Qed.

(** The script always returns, and what it returns. *)
Lemma rename_images_by_age_eq (p : platform) (w : world) :
  rename_images_by_age p w =
  Returned
    (if is_empty (jpg_files p (fs w)) then print w no_jpg_msg
     else if is_empty (candidates p (fs w)) then print w nothing_to_rename_msg
     else print (rename_loop p 0 (ranked p (fs w)) w)
                (summary (List.length (candidates p (fs w))))).
Proof.
  unfold rename_images_by_age.
  destruct (is_empty (jpg_files p (fs w))); [reflexivity|].
  rewrite collect_listed by apply jpg_files_listed.
  cbn [app]. fold (candidates p (fs w)). fold (file_info p (fs w)).
  replace (is_empty (file_info p (fs w))) with (is_empty (candidates p (fs w)))
    by (unfold file_info; destruct (candidates p (fs w)); reflexivity).
  destruct (is_empty (candidates p (fs w))); [reflexivity|].
  fold (ranked p (fs w)). now rewrite ranked_length.
Qed.


Lemma rename_step_error (p : platform) (i : nat) (old_name : string)
  (w : world) (e : exn) :
  path_exists p (fs w) (new_name i) = false ->
  rename p (fs w) old_name (new_name i) = inl e ->
  rename_step p i old_name w
  = mkWorld (fs w)
      (stdout w ++ [error_msg p old_name e])
      (renames w ++ [(old_name, new_name i)]).
Proof.
  intros H He. unfold rename_step. rewrite H. cbn [fs stdout renames].
  now rewrite He.
Qed.

Lemma rename_step_ok (p : platform) (i : nat) (old_name : string)
  (w : world) (d' : directory) :
  path_exists p (fs w) (new_name i) = false ->
  rename p (fs w) old_name (new_name i) = inr d' ->
  rename_step p i old_name w
  = mkWorld d'
      (stdout w ++ [renamed_msg old_name (new_name i)])
      (renames w ++ [(old_name, new_name i)]).
Proof.
  intros H He. unfold rename_step. rewrite H. cbn [fs stdout renames].
  now rewrite He.
Qed.




(** The sources of the [os.rename] calls of the loop are names of
    [file_info]. *)
Lemma rename_loop_sources (p : platform) (l : list (string * Z)) :
  forall i w old new,
    In (old, new) (renames (rename_loop p i l w)) ->
    In (old, new) (renames w) \/ In old (map fst l).
Proof.
  induction l as [|[old_name m] l IH]; intros i w old new H;
    cbn [rename_loop] in H; [now left|].
  apply IH in H as [H|H]; [|right; now right].
  unfold rename_step in H.
  destruct (path_exists p (fs w) (new_name i)); [now left|].
  cbn [fs stdout renames] in H.
  destruct (rename p (fs w) old_name (new_name i));
    cbn [print renames] in H;
    apply in_app_or in H as [H|[[= <- <-]|[]]]; auto; right; now left.
Qed.

End Renamer_facts.

(** ** What the renamer guarantees *)

Module Renamer_claims.
Import OS OS_facts Glob_facts Renamer_facts rename_by_age.

(** C3, as stated, fails: a name that ends in [.jpg] and does not start
    with 0 is not selected when it starts with a dot, on either platform,
    and a mixed-case extension is not selected on POSIX. *)
Lemma selection_is_not_case_insensitive_suffix :
  spec_candidate ".a.jpg" = true
  /\ candidates Posix [jpg ".a.jpg" 1] = []
  /\ candidates Windows [jpg ".a.jpg" 1] = []
  /\ spec_candidate "a.Jpg" = true
  /\ candidates Posix [jpg "a.Jpg" 1] = [].
Proof. repeat split; reflexivity. Qed.

(** C3, amended: a directory entry is selected as a candidate exactly when
    its name is not hidden (no leading dot), does not start with the digit
    0, and ends in one of [.jpg], [.JPG], [.jpeg], [.JPEG] on POSIX, or,
    on Windows, ends in [.jpg] or [.jpeg] once case is folded. *)
Theorem candidate_selection (p : platform) (d : directory) (name : string) :
  In name (candidates p d) <-> In name (listdir d) /\ selects p name = true.
Proof.
  rewrite candidates_In, jpg_files_In. unfold selects.
  rewrite !andb_true_iff, !negb_true_iff. tauto.
Qed.

(** C5: when no candidate remains, the script returns after printing one
    line that says there is nothing to do,
    [No JPG files found in current directory] when no name matched and
    [No files to rename (all files already renamed or no valid files)]
    when every match starts with 0; the directory is untouched and no
    [os.rename] is attempted. *)
Theorem empty_candidates_nothing_done (p : platform) (w : world) :
  is_empty (candidates p (fs w)) = true ->
  rename_images_by_age p w =
  Returned
    (mkWorld (fs w)
       (stdout w
        ++ [if is_empty (jpg_files p (fs w))
            then "No JPG files found in current directory"
            else "No files to rename (all files already renamed or no valid files)"])
       (renames w)).
Proof.
  intros He. rewrite rename_images_by_age_eq, He.
  destruct (is_empty (jpg_files p (fs w))); reflexivity.
Qed.

Lemma empty_candidates_nothing_done_witness :
  let w := initial [jpg "0000.jpg" 5; jpg "photo.png" 7] in
  is_empty (candidates Posix (fs w)) = true
  /\ rename_images_by_age Posix w
     = Returned
         (mkWorld (fs w)
            ["No files to rename (all files already renamed or no valid files)"]
            []).
Proof.
  split; [reflexivity|].
  apply (empty_candidates_nothing_done Posix
           (initial [jpg "0000.jpg" 5; jpg "photo.png" 7])).
  reflexivity.
Defined.

(** C8: a file whose name starts with the digit 0 is never a candidate and
    never the source of an [os.rename]; and when every matching file
    starts with 0 the run renames nothing. *)
Theorem zero_prefixed_never_source (p : platform) (w : world) (name : string) :
  Py.startswith name "0" = true ->
  ~ In name (candidates p (fs w))
  /\ exists w',
       rename_images_by_age p w = Returned w'
       /\ (forall new, In (name, new) (renames w') -> In (name, new) (renames w))
       /\ (forallb (fun n => Py.startswith n "0") (jpg_files p (fs w)) = true ->
           fs w' = fs w /\ renames w' = renames w).
Proof.
  intros H0.
  assert (Hnc : ~ In name (candidates p (fs w))).
  { rewrite candidates_In. intros [_ H]. congruence. }
  split; [exact Hnc|].
  rewrite rename_images_by_age_eq. eexists. split; [reflexivity|]. split.
  - intros new.
    destruct (is_empty (jpg_files p (fs w))); [auto|].
    destruct (is_empty (candidates p (fs w))); [auto|].
    cbn [print renames]. intros H.
    apply rename_loop_sources in H as [H|H]; [exact H|].
    apply ranked_names in H. contradiction.
  - intros Hall.
    destruct (is_empty (jpg_files p (fs w))); [split; reflexivity|].
    assert (Hc : candidates p (fs w) = []).
    { unfold candidates. rewrite forallb_forall in Hall.
      induction (jpg_files p (fs w)) as [|n l IH]; [reflexivity|].
      cbn [filter]. rewrite (Hall n) by now left. cbn [negb].
      apply IH. intros x Hx. apply Hall. now right. }
    rewrite Hc. split; reflexivity.
Qed.

Lemma zero_prefixed_never_source_witness :
  let w := initial [jpg "0000.jpg" 3; jpg "0001.jpg" 2; jpg "0abc.JPG" 9] in
  Py.startswith "0abc.JPG" "0" = true
  /\ ~ In "0abc.JPG" (candidates Posix (fs w))
  /\ exists w', rename_images_by_age Posix w = Returned w'
                /\ fs w' = fs w /\ renames w' = [].
Proof.
  split; [reflexivity|].
  destruct (zero_prefixed_never_source Posix
              (initial [jpg "0000.jpg" 3; jpg "0001.jpg" 2; jpg "0abc.JPG" 9])
              "0abc.JPG" eq_refl) as (Hnc & w' & Hrun & _ & Hall).
  split; [exact Hnc|]. exists w'. split; [exact Hrun|].
  apply Hall. reflexivity.
Defined.

End Renamer_claims.

(** ** Collisions and failures *)

Module Renamer_safety.
Import OS OS_facts Glob_facts Renamer_facts rename_by_age.





End Renamer_safety.

(** ** Target names *)

Module Name_facts.
Import Py Py_facts OS OS_facts rename_by_age.

Lemma int_from_inj (s : string) :
  forall a b, int_from a s = int_from b s -> a = b.
Proof.
  induction s as [|c s IH]; intros a b H; cbn [int_from] in H; [exact H|].
  apply IH in H. lia.
Qed.

(** Distinct ranks give distinct target names. *)
Lemma new_name_inj (i j : nat) : new_name i = new_name j -> i = j.
Proof.
  intros H. apply (f_equal int) in H. unfold int, new_name in H.
  rewrite !int_from_app in H. apply int_from_inj in H.
  fold (int (fmt04d i)) in H. fold (int (fmt04d j)) in H.
  now rewrite !int_fmt04d in H.
Qed.

Lemma fmt04d_nonempty (i : nat) : fmt04d i <> "".
Proof.
  intros H. destruct i as [|i]; [discriminate|].
  pose proof (int_fmt04d (S i)) as Hi. rewrite H in Hi. discriminate.
Qed.

Lemma new_name_startswith (i : nat) :
  startswith (new_name i) "0" = startswith (fmt04d i) "0".
Proof.
  unfold new_name. pose proof (fmt04d_nonempty i) as H.
  destruct (fmt04d i) as [|c s]; [contradiction|].
  rewrite !startswith_zero. reflexivity.
Qed.

(** The exclusion by a leading 0 covers the ranks up to 999 and no other. *)
Lemma new_name_zero_prefixed (i : nat) :
  startswith (new_name i) "0" = true <-> i <= 999.
Proof.
  rewrite new_name_startswith. destruct (Nat.le_gt_cases i 999) as [Hle|Hgt].
  - rewrite fmt04d_small by lia. tauto.
  - rewrite fmt04d_large by lia. split; [discriminate|lia].
Qed.

Lemma stable_app (a b : string) : stable a -> stable b -> stable (a ++ b).
Proof.
  unfold stable, normcase. revert b.
  induction a as [|c a IH]; intros b Ha Hb; cbn [append lower replace_char] in *.
  - exact Hb.
  - injection Ha as Hc Ha. rewrite Hc. f_equal. now apply IH.
Qed.

Lemma stable_digit (d : nat) (s : string) :
  d < 10 -> stable s -> stable (String (digit d) s).
Proof.
  intros Hd Hs. unfold stable, normcase in *. cbn [lower replace_char].
  rewrite Hs. f_equal.
  do 10 (destruct d as [|d]; [reflexivity|]). lia.
Qed.

Lemma stable_digits (fuel : nat) :
  forall n acc, stable acc -> stable (digits fuel n acc).
Proof.
  induction fuel as [|fuel IH]; intros n acc Ha; cbn [digits]; [exact Ha|].
  destruct (Nat.ltb_spec n 10) as [Hlt|Hge].
  - now apply stable_digit.
  - apply IH, stable_digit; [apply Nat.mod_upper_bound; lia|exact Ha].
Qed.

Lemma stable_zeros (k : nat) : stable (zeros k).
Proof.
  induction k as [|k IH]; [reflexivity|].
  unfold stable, normcase in *. cbn [zeros lower replace_char].
  now rewrite IH.
Qed.

(** A target name is its own normal form on both platforms. *)
Lemma normcase_new_name (p : platform) (i : nat) :
  normcase p (new_name i) = new_name i.
Proof.
  destruct p; [reflexivity|].
  apply stable_app; [|reflexivity].
  apply stable_app; [apply stable_zeros|].
  apply stable_digits. reflexivity.
Qed.

Lemma index_of_Some (x : string) (l : list string) :
  forall j, index_of x l = Some j -> nth_error l j = Some x.
Proof.
  induction l as [|y l IH]; intros j; cbn [index_of]; [discriminate|].
  destruct (String.eqb_spec y x) as [->|Hne].
  - now intros [= <-].
  - destruct (index_of x l) as [k|]; [|discriminate].
    intros [= <-]. cbn [nth_error]. now apply IH.
Qed.

Lemma index_of_In (x : string) (l : list string) :
  In x l -> exists j, index_of x l = Some j.
Proof.
  induction l as [|y l IH]; intros H; [destruct H|]. cbn [index_of].
  destruct (String.eqb_spec y x) as [->|Hne]; [now exists 0|].
  destruct H as [H|H]; [contradiction|].
  destruct (IH H) as [j ->]. now exists (S j).
Qed.

Lemma index_of_None (x : string) (l : list string) :
  index_of x l = None <-> ~ In x l.
Proof.
  split.
  - intros H Hin. apply index_of_In in Hin as [j Hj]. congruence.
  - intros H. destruct (index_of x l) as [j|] eqn:E; [|reflexivity].
    exfalso. apply H. apply index_of_Some in E. eapply nth_error_In, E.
Qed.

Lemma index_of_lt (x : string) (l : list string) (j : nat) :
  index_of x l = Some j -> j < List.length l.
Proof.
  intros H. apply index_of_Some in H. apply nth_error_Some. congruence.
Qed.

Lemma index_of_snoc (y x : string) (pre : list string) :
  index_of y (pre ++ [x])
  = match index_of y pre with
    | Some j => Some j
    | None => if String.eqb x y then Some (List.length pre) else None
    end.
Proof.
  induction pre as [|z pre IH]; cbn [app index_of List.length].
  - destruct (String.eqb x y); reflexivity.
  - destruct (String.eqb z y); [reflexivity|]. rewrite IH.
    destruct (index_of y pre); [reflexivity|].
    destruct (String.eqb x y); reflexivity.
Qed.

End Name_facts.

(** ** The directory while the loop runs *)

Module Stage_facts.
Import OS OS_facts Renamer_facts Name_facts rename_by_age.

Section Stage.
Variable p : platform.
Variable N : nat.

Lemma in_keys (d : directory) (e : entry) :
  In e d -> In (normcase p (e_name e)) (keys p d).
Proof. intros H. unfold keys. now apply (in_map (fun e => normcase p (e_name e))). Qed.

Lemma fresh_targets_tail (e : entry) (d : directory) :
  fresh_targets p N (e :: d) -> fresh_targets p N d.
Proof. intros Hf j Hj H. apply (Hf j Hj). now right. Qed.

Lemma renamed_key (pre : list string) (e : entry) :
  normcase p (e_name (renamed pre e))
  = match index_of (e_name e) pre with
    | Some j => new_name j
    | None => normcase p (e_name e)
    end.
Proof.
  unfold renamed. destruct (index_of (e_name e) pre); [|reflexivity].
  cbn [with_name e_name]. apply normcase_new_name.
Qed.

Lemma keys_stage (pre : list string) (d : directory) (k : string) :
  In k (keys p (stage pre d)) ->
  (exists e, In e d /\ index_of (e_name e) pre = None
             /\ k = normcase p (e_name e))
  \/ (exists j, j < List.length pre /\ k = new_name j).
Proof.
  unfold keys, stage. rewrite map_map, in_map_iff.
  intros (e & <- & He). rewrite renamed_key.
  destruct (index_of (e_name e) pre) as [j|] eqn:E.
  - right. exists j. split; [eapply index_of_lt, E|reflexivity].
  - left. now exists e.
Qed.

(** A renamed entry is not taken for an entry of the directory. *)
Lemma renamed_key_other (pre : list string) (d : directory) (e : entry) (k : string) :
  List.length pre <= N -> fresh_targets p N d ->
  ~ In (normcase p (e_name e)) (keys p d) -> In k (keys p d) ->
  normcase p (e_name (renamed pre e)) <> k.
Proof.
  intros Hlen Hf Hnin Hk. rewrite renamed_key.
  destruct (index_of (e_name e) pre) as [j|] eqn:E.
  - intros <-. apply index_of_lt in E. apply (Hf j); [lia|assumption].
  - intros <-. contradiction.
Qed.

(** The next target name is free. *)
Lemma stage_target_free (pre : list string) (d : directory) :
  List.length pre < N -> fresh_targets p N d ->
  path_exists p (stage pre d) (new_name (List.length pre)) = false.
Proof.
  intros Hlen Hf. apply path_exists_false. rewrite normcase_new_name.
  intros H. apply keys_stage in H as [(e & He & _ & Hk)|(j & Hj & Hk)].
  - apply (Hf (List.length pre) Hlen). rewrite Hk. now apply in_keys.
  - apply new_name_inj in Hk. lia.
Qed.

Lemma stage_nil (d : directory) : stage [] d = d.
Proof.
  unfold stage. induction d as [|e d IH]; cbn [map]; [|rewrite IH]; reflexivity.
Qed.

(** Renaming a source a second time changes nothing. *)
Lemma stage_again (pre : list string) (x : string) (d : directory) :
  In x pre -> stage (pre ++ [x]) d = stage pre d.
Proof.
  intros Hx. unfold stage. apply map_ext. intros e. unfold renamed.
  rewrite index_of_snoc. destruct (index_of (e_name e) pre) eqn:E; [reflexivity|].
  destruct (String.eqb_spec x (e_name e)) as [->|]; [|reflexivity].
  apply index_of_None in E. contradiction.
Qed.

(** A source that was renamed is no longer found. *)
Lemma stage_lookup_done (pre : list string) (d : directory) (x : string) :
  List.length pre <= N -> NoDup (keys p d) -> fresh_targets p N d ->
  In x (listdir d) -> In x pre ->
  lookup p (stage pre d) x = None.
Proof.
  intros Hlen Hnd Hf Hx Hpre. apply lookup_None. intros H.
  apply in_map_iff in Hx as (ex & <- & Hex).
  apply keys_stage in H as [(e & He & Hi & Hk)|(j & Hj & Hk)].
  - assert (e = ex) by (eapply keys_inj; eauto). subst e.
    apply index_of_None in Hi. contradiction.
  - apply (Hf j); [lia|]. rewrite <- Hk. now apply in_keys.
Qed.

(** A source that was not renamed yet is found, as it was. *)
Lemma stage_lookup_todo (pre : list string) (d : directory) (e : entry) :
  List.length pre <= N -> NoDup (keys p d) -> fresh_targets p N d ->
  In e d -> index_of (e_name e) pre = None ->
  lookup p (stage pre d) (e_name e) = Some e.
Proof.
  intros Hlen Hnd Hf He Hi. induction d as [|e' d IH]; [destruct He|].
  cbn [stage map lookup]. fold (stage pre d).
  cbn [keys map] in Hnd. inversion Hnd as [|k ks Hnin Hnd' E]; subst.
  fold (keys p d) in Hnin.
  destruct He as [->|He].
  - unfold renamed. rewrite Hi. unfold same_name.
    now rewrite String.eqb_refl.
  - assert (Hs : same_name p (e_name (renamed pre e')) (e_name e) = false).
    { apply same_name_false_iff.
      apply (renamed_key_other pre d); try assumption;
        [eapply fresh_targets_tail, Hf|now apply in_keys]. }
    rewrite Hs. apply IH; [assumption|eapply fresh_targets_tail, Hf|assumption].
Qed.

(** Moving the next source gives the next stage. *)
Lemma stage_move (pre : list string) (d : directory) (x : string) :
  List.length pre <= N -> NoDup (keys p d) -> fresh_targets p N d ->
  In x (listdir d) -> index_of x pre = None ->
  move p (stage pre d) x (new_name (List.length pre)) = stage (pre ++ [x]) d.
Proof.
  intros Hlen Hnd Hf Hx Hi. induction d as [|e d IH]; [destruct Hx|].
  cbn [stage map move]. fold (stage pre d). fold (stage (pre ++ [x]) d).
  cbn [keys map] in Hnd. inversion Hnd as [|k ks Hnin Hnd' E]; subst.
  fold (keys p d) in Hnin.
  pose proof (fresh_targets_tail _ _ Hf) as Hf'.
  destruct (String.eqb_spec (e_name e) x) as [Hex|Hex].
  - unfold renamed. rewrite index_of_snoc, Hex, Hi, String.eqb_refl.
    unfold same_name. rewrite Hex, String.eqb_refl. f_equal.
    unfold stage. apply map_ext_in. intros e' He'. unfold renamed.
    rewrite index_of_snoc.
    destruct (index_of (e_name e') pre); [reflexivity|].
    destruct (String.eqb_spec x (e_name e')) as [Hx'|]; [|reflexivity].
    exfalso. apply Hnin. rewrite Hex, Hx'. now apply in_keys.
  - destruct Hx as [Hx|Hx]; [contradiction|].
    assert (Hkx : In (normcase p x) (keys p d)).
    { rewrite keys_listdir. now apply in_map. }
    assert (Hs : same_name p (e_name (renamed pre e)) x = false).
    { apply same_name_false_iff.
      now apply (renamed_key_other pre d). }
    rewrite Hs, IH by assumption. f_equal. unfold renamed.
    rewrite index_of_snoc. destruct (index_of (e_name e) pre); [reflexivity|].
    destruct (String.eqb_spec x (e_name e)); [congruence|reflexivity].
Qed.

(** Loop invariant: after the sources [pre] the directory is [stage pre d],
    provided the directory is well formed, bears none of the target names
    of this run, and the system refuses none of the sources. *)
Lemma rename_loop_stage (d : directory) :
  NoDup (keys p d) -> fresh_targets p N d ->
  forall rest pre w,
    List.length pre + List.length rest <= N ->
    (forall x, In x (map fst rest) ->
               exists e, In e d /\ e_name e = x /\ e_protected e = false) ->
    fs w = stage pre d ->
    fs (rename_loop p (List.length pre) rest w) = stage (pre ++ map fst rest) d.
Proof.
  intros Hnd Hf rest.
  induction rest as [|[x m] rest IH]; intros pre w Hlen Hsrc Hw;
    cbn [rename_loop map fst].
  - now rewrite app_nil_r.
  - cbn [List.length] in Hlen.
    replace (pre ++ x :: map fst rest) with ((pre ++ [x]) ++ map fst rest)
      by (now rewrite <- app_assoc).
    replace (S (List.length pre)) with (List.length (pre ++ [x]))
      by (rewrite length_app; cbn [List.length]; lia).
    apply IH;
      [rewrite length_app; cbn [List.length]; lia
      |intros y Hy; apply Hsrc; now right|].
    destruct (Hsrc x (or_introl eq_refl)) as (e & He & Hname & Hprot).
    assert (Hfree : path_exists p (fs w) (new_name (List.length pre)) = false)
      by (rewrite Hw; apply stage_target_free; [lia|assumption]).
    pose proof (rename_fresh p (fs w) x (new_name (List.length pre)) Hfree) as Hr.
    destruct (index_of x pre) as [j|] eqn:Hi.
    + assert (Hpre : In x pre).
      { apply index_of_Some in Hi. eapply nth_error_In, Hi. }
      assert (Hl : lookup p (fs w) x = None).
      { rewrite Hw. apply stage_lookup_done; try assumption; [lia|].
        rewrite <- Hname. now apply in_map. }
      rewrite Hl in Hr.
      rewrite (rename_step_error _ _ _ _ _ Hfree Hr). cbn [fs].
      now rewrite stage_again.
    + assert (Hl : lookup p (fs w) x = Some e).
      { rewrite Hw, <- Hname. apply stage_lookup_todo; try assumption; [lia|].
        now rewrite Hname. }
      rewrite Hl, Hprot in Hr.
      rewrite (rename_step_ok _ _ _ _ _ Hfree Hr). cbn [fs].
      rewrite Hw. apply stage_move; try assumption; [lia|].
      rewrite <- Hname. now apply in_map.
Qed.

End Stage.

End Stage_facts.

(** ** Ranks follow recency *)

Module Rank_facts.
Import OS OS_facts Glob_facts Renamer_facts Name_facts Stage_facts rename_by_age.

Lemma lookup_wf (p : platform) (d : directory) (e : entry) :
  NoDup (keys p d) -> In e d -> lookup p d (e_name e) = Some e.
Proof.
  intros Hnd He. rewrite <- (stage_nil d) at 1.
  apply (stage_lookup_todo p 0); try assumption; [cbn; lia| |reflexivity].
  intros j Hj. lia.
Qed.

Lemma mtime_of_entry (p : platform) (d : directory) (e : entry) :
  NoDup (keys p d) -> In e d -> mtime_of p d (e_name e) = e_mtime e.
Proof. intros Hnd He. unfold mtime_of. now rewrite lookup_wf. Qed.

Lemma targets_free_fresh (p : platform) (d : directory) :
  targets_free p d = true ->
  fresh_targets p (List.length (candidates p d)) d.
Proof.
  unfold targets_free. rewrite forallb_forall. intros H j Hj.
  specialize (H j). rewrite in_seq, negb_true_iff, path_exists_false in H.
  rewrite normcase_new_name in H. apply H. lia.
Qed.

Lemma none_protected_sources (p : platform) (d : directory) (x : string) :
  NoDup (keys p d) -> none_protected p d = true ->
  In x (candidates p d) ->
  exists e, In e d /\ e_name e = x /\ e_protected e = false.
Proof.
  intros Hnd Hp Hx. unfold none_protected in Hp. rewrite forallb_forall in Hp.
  specialize (Hp x Hx). apply candidates_listed in Hx.
  apply in_map_iff in Hx as (e & <- & He).
  rewrite lookup_wf in Hp by assumption.
  exists e. split; [assumption|]. split; [reflexivity|].
  now apply negb_true_iff.
Qed.

Lemma distinct_mtimes_inj (p : platform) (d : directory) (a b : string) :
  distinct_mtimes p d = true ->
  In a (candidates p d) -> In b (candidates p d) ->
  mtime_of p d a = mtime_of p d b -> a = b.
Proof.
  unfold distinct_mtimes. rewrite forallb_forall. intros H Ha Hb Hm.
  specialize (H a Ha). rewrite forallb_forall in H. specialize (H b Hb).
  rewrite Hm, Z.eqb_refl in H. cbn [implb] in H. now apply String.eqb_eq.
Qed.

(** In a list sorted newest first, an entry modified later comes first. *)
Lemma sorted_index_lt (mt : string -> Z) (l : list (string * Z)) :
  StronglySorted (Py.newer_first snd) l ->
  (forall x, In x l -> snd x = mt (fst x)) ->
  forall a b ia ib,
    index_of a (map fst l) = Some ia ->
    index_of b (map fst l) = Some ib ->
    (mt b < mt a)%Z -> ia < ib.
Proof.
  induction 1 as [|[n0 m0] l Hl IH Hhd]; intros Hmt a b ia ib Ha Hb Hlt;
    [discriminate|].
  cbn [map fst index_of] in Ha, Hb.
  assert (Hmt' : forall x, In x l -> snd x = mt (fst x))
    by (intros x Hx; apply Hmt; now right).
  pose proof (Hmt (n0, m0) (or_introl eq_refl)) as Hm0. cbn [fst snd] in Hm0.
  destruct (String.eqb_spec n0 a) as [Ea|Ea].
  - injection Ha as <-. destruct (String.eqb_spec n0 b) as [Eb|Eb].
    + subst. lia.
    + destruct (index_of b (map fst l)); [|discriminate].
      injection Hb as <-. lia.
  - destruct (index_of a (map fst l)) as [ia'|] eqn:Hia; [|discriminate].
    injection Ha as <-.
    destruct (String.eqb_spec n0 b) as [Eb|Eb].
    + exfalso. apply index_of_Some in Hia. apply nth_error_In in Hia.
      apply in_map_iff in Hia as ([a' ma] & Hfa & Hin). cbn [fst] in Hfa. subst a'.
      rewrite Forall_forall in Hhd. specialize (Hhd _ Hin).
      unfold Py.newer_first in Hhd. cbn [snd] in Hhd.
      specialize (Hmt' _ Hin). cbn [fst snd] in Hmt'. subst. lia.
    + destruct (index_of b (map fst l)) as [ib'|] eqn:Hib; [|discriminate].
      injection Hb as <-. apply -> Nat.succ_lt_mono.
      eapply IH; eauto.
Qed.

Lemma ranked_sorted (p : platform) (d : directory) :
  StronglySorted (Py.newer_first snd) (ranked p d).
Proof. apply Sort_facts.sorted_reverse_sorted. Qed.

Lemma ranked_mtime (p : platform) (d : directory) (x : string * Z) :
  In x (ranked p d) -> snd x = mtime_of p d (fst x).
Proof.
  unfold ranked, sort_newest_first. rewrite Sort_facts.sorted_reverse_In.
  unfold file_info. rewrite in_map_iff. now intros (n & <- & _).
Qed.

Lemma rank_candidate (p : platform) (d : directory) (n : string) :
  In n (candidates p d) <-> exists r, rank p d n = Some r.
Proof.
  unfold rank. split.
  - intros H. apply index_of_In. now apply ranked_names.
  - intros [r H]. apply ranked_names. apply index_of_Some in H.
    eapply nth_error_In, H.
Qed.

(** A later modification time gives a smaller rank. *)
Lemma rank_monotone (p : platform) (d : directory) (a b : string) (ra rb : nat) :
  rank p d a = Some ra -> rank p d b = Some rb ->
  (mtime_of p d b < mtime_of p d a)%Z -> ra < rb.
Proof.
  apply (sorted_index_lt (mtime_of p d));
    [apply ranked_sorted|apply ranked_mtime].
Qed.

(** The candidate no other is newer than has rank 0, when modification
    times tell the candidates apart. *)
Lemma rank_newest (p : platform) (d : directory) (a : string) :
  distinct_mtimes p d = true ->
  In a (candidates p d) ->
  (forall b, In b (candidates p d) -> (mtime_of p d b <= mtime_of p d a)%Z) ->
  rank p d a = Some 0.
Proof.
  intros Hd Ha Hmax. destruct (proj1 (rank_candidate p d a) Ha) as [r Hr].
  destruct r as [|r]; [exact Hr|]. exfalso.
  unfold rank in Hr. destruct (ranked p d) as [|[n0 m0] l] eqn:El;
    [discriminate|].
  assert (H0 : rank p d n0 = Some 0).
  { unfold rank. rewrite El. cbn [map fst index_of]. now rewrite String.eqb_refl. }
  assert (Hn0 : In n0 (candidates p d)) by (apply rank_candidate; eauto).
  assert (Hra : rank p d a = Some (S r)) by (unfold rank; now rewrite El).
  destruct (Z.lt_total (mtime_of p d n0) (mtime_of p d a)) as [Hlt|[Heq|Hgt]].
  - pose proof (rank_monotone p d a n0 (S r) 0 Hra H0 Hlt). lia.
  - apply distinct_mtimes_inj in Heq; try assumption. subst n0. congruence.
  - specialize (Hmax n0 Hn0). lia.
Qed.

End Rank_facts.

(** ** Ranks of a whole run *)

Module Rank_claims.
Import OS OS_facts Glob_facts Renamer_facts Name_facts Stage_facts Rank_facts.
Import rename_by_age.

Lemma length_app_string (a b : string) :
  String.length (a ++ b) = String.length a + String.length b.
Proof. induction a as [|c a IH]; cbn [append String.length]; [|rewrite IH]; reflexivity. Qed.

Lemma length_zeros (k : nat) : String.length (Py.zeros k) = k.
Proof. induction k as [|k IH]; cbn [Py.zeros String.length]; [|rewrite IH]; reflexivity. Qed.

(** A target name has eight characters at least. *)
Lemma new_name_length (i : nat) : 8 <= String.length (new_name i).
Proof.
  unfold new_name, Py.fmt04d, Py.zfill.
  rewrite !length_app_string, length_zeros.
  change (String.length ".jpg") with 4. lia.
Qed.

Lemma short_name_no_target (p : platform) (d : directory) :
  forallb (fun k => (String.length k <? 8)%nat) (keys p d) = true ->
  forall i, path_exists p d (new_name i) = false.
Proof.
  rewrite forallb_forall. intros H i. apply path_exists_false.
  rewrite normcase_new_name. intros Hin. apply H in Hin.
  apply Nat.ltb_lt in Hin. pose proof (new_name_length i). lia.
Qed.

(** C1, as stated, fails: the two candidates have distinct modification
    times and no entry bears a target name, yet the newest candidate, which
    the system refuses to move, keeps its name, and [0000.jpg] does not
    exist after the run. *)
Lemma newest_refused_keeps_its_name :
  let d := [jpg_protected "a.jpg" 2; jpg "b.jpg" 1] in
  wf Posix d = true
  /\ candidates Posix d = ["a.jpg"; "b.jpg"]
  /\ distinct_mtimes Posix d = true
  /\ (forall i, path_exists Posix d (new_name i) = false)
  /\ rename_images_by_age Posix (initial d)
     = Returned
         (mkWorld [jpg_protected "a.jpg" 2; with_name "0001.jpg" (jpg "b.jpg" 1)]
            [error_msg Posix "a.jpg" (PermissionError "a.jpg" (Some "0000.jpg"));
             renamed_msg "b.jpg" "0001.jpg";
             summary 2]
            [("a.jpg", "0000.jpg"); ("b.jpg", "0001.jpg")]).
Proof.
  cbv zeta. split; [reflexivity|]. split; [reflexivity|]. split; [reflexivity|].
  split; [|reflexivity].
  apply short_name_no_target. reflexivity.
Qed.

(** C1, amended: in a well-formed directory where none of the target names
    of the run exists, the system refuses to move none of the candidates
    and modification times tell the candidates apart, the run returns and
    every candidate bears the target name of its rank; the candidate no
    other is newer than has rank 0, so it is named [0000.jpg], and of two
    candidates the one modified later has the smaller rank. *)
Theorem newest_first_ranks (p : platform) (d : directory) :
  wf p d = true ->
  targets_free p d = true ->
  none_protected p d = true ->
  distinct_mtimes p d = true ->
  exists w',
    rename_images_by_age p (initial d) = Returned w'
    /\ fs w' = map (fun e => match rank p d (e_name e) with
                             | Some r => with_name (new_name r) e
                             | None => e
                             end) d
    /\ new_name 0 = "0000.jpg"
    /\ (forall e,
          In e d -> In (e_name e) (candidates p d) ->
          (forall e', In e' d -> In (e_name e') (candidates p d) ->
                      (e_mtime e' <= e_mtime e)%Z) ->
          rank p d (e_name e) = Some 0)
    /\ (forall e1 e2,
          In e1 d -> In e2 d ->
          In (e_name e1) (candidates p d) -> In (e_name e2) (candidates p d) ->
          (e_mtime e2 < e_mtime e1)%Z ->
          exists r1 r2, rank p d (e_name e1) = Some r1
                        /\ rank p d (e_name e2) = Some r2 /\ r1 < r2).
Proof.
  intros Hwf Hfree Hprot Hdist. apply wf_NoDup in Hwf.
  rewrite rename_images_by_age_eq. eexists. split; [reflexivity|].
  split; [|split; [reflexivity|split]].
  - change (fs (initial d)) with d.
    change (map _ d) with (stage (map fst (ranked p d)) d).
    assert (Hloop : fs (rename_loop p 0 (ranked p d) (initial d))
                    = stage (map fst (ranked p d)) d).
    { apply (rename_loop_stage p (List.length (candidates p d)) d Hwf
               (targets_free_fresh p d Hfree) (ranked p d) [] (initial d)).
      - cbn [List.length Nat.add]. now rewrite ranked_length.
      - intros x Hx. apply (none_protected_sources p); try assumption.
        now apply ranked_names.
      - now rewrite stage_nil. }
    assert (Hnil : candidates p d = [] -> stage (map fst (ranked p d)) d = d).
    { intros Hc. pose proof (ranked_length p d) as Hl. rewrite Hc in Hl.
      destruct (ranked p d); [apply stage_nil|discriminate]. }
    destruct (is_empty (jpg_files p d)) eqn:Hj.
    + cbn [print fs]. symmetry. apply Hnil. unfold candidates.
      destruct (jpg_files p d); [reflexivity|discriminate].
    + destruct (candidates p d) eqn:Hc; cbn [is_empty print fs].
      * symmetry. now apply Hnil.
      * exact Hloop.
  - intros e He Hc Hmax. apply rank_newest; try assumption.
    intros b Hb. pose proof (candidates_listed _ _ _ Hb) as Hbl.
    apply in_map_iff in Hbl as (eb & <- & Heb).
    rewrite !mtime_of_entry by assumption. now apply Hmax.
  - intros e1 e2 H1 H2 Hc1 Hc2 Hlt.
    destruct (proj1 (rank_candidate p d _) Hc1) as [r1 Hr1].
    destruct (proj1 (rank_candidate p d _) Hc2) as [r2 Hr2].
    exists r1, r2. split; [assumption|]. split; [assumption|].
    apply (rank_monotone p d (e_name e1) (e_name e2)); try assumption.
    now rewrite !mtime_of_entry.
Qed.

Lemma newest_first_ranks_witness :
  let d := [jpg "c.jpeg" 0; jpg "a.jpg" 2; jpg "b.JPG" 1; jpg "notes.txt" 9] in
  wf Posix d = true /\ targets_free Posix d = true
  /\ none_protected Posix d = true /\ distinct_mtimes Posix d = true
  /\ exists w',
       rename_images_by_age Posix (initial d) = Returned w'
       /\ fs w' = [with_name "0002.jpg" (jpg "c.jpeg" 0);
                   with_name "0000.jpg" (jpg "a.jpg" 2);
                   with_name "0001.jpg" (jpg "b.JPG" 1);
                   jpg "notes.txt" 9].
Proof.
  cbv zeta. repeat (split; [reflexivity|]).
  destruct (newest_first_ranks Posix
              [jpg "c.jpeg" 0; jpg "a.jpg" 2; jpg "b.JPG" 1; jpg "notes.txt" 9]
              eq_refl eq_refl eq_refl eq_refl) as (w' & Hrun & Hfs & _).
  exists w'. split; [exact Hrun|]. rewrite Hfs. reflexivity.
Defined.

(** C10: the leading 0 marks the target names of ranks 0 to 999 and no
    other; with 1001 candidates the run gives the oldest one the name
    [1000.jpg], and that file is a candidate again in the directory the
    run leaves. *)
Theorem outputs_from_rank_1000_are_reselected :
  (forall i, Py.startswith (new_name i) "0" = true <-> i <= 999)
  /\ new_name 1000 = "1000.jpg"
  /\ exists d w',
       1000 < List.length (candidates Posix d)
       /\ rename_images_by_age Posix (initial d) = Returned w'
       /\ lookup Posix d "img0.jpg" = Some (jpg "img0.jpg" 0)
       /\ lookup Posix (fs w') (new_name 1000)
          = Some (with_name "1000.jpg" (jpg "img0.jpg" 0))
       /\ candidates Posix (fs w') = ["1000.jpg"].
Proof.
  split; [apply new_name_zero_prefixed|]. split; [reflexivity|].
  exists (many 1001),
         (world_of (rename_images_by_age Posix (initial (many 1001)))).
  split; [vm_compute; lia|].
  split; [rewrite rename_images_by_age_eq; reflexivity|].
  split; [vm_compute; reflexivity|].
  assert (H : (let w' := world_of (rename_images_by_age Posix (initial (many 1001))) in
               (lookup Posix (fs w') (new_name 1000), candidates Posix (fs w')))
              = (Some (with_name "1000.jpg" (jpg "img0.jpg" 0)), ["1000.jpg"]))
    by (vm_compute; reflexivity).
  cbv zeta in H. apply pair_equal_spec in H. exact H.
Qed.

End Rank_claims.

(** ** Launchers: which commands are started *)

Module Proc_facts.
Import OS Proc.

Lemma launches_ret {A} (P : list string -> Prop) (Q : A -> Prop) (a : A) :
  Q a -> launches P Q (ret a).
Proof.
  intros Ha s. exists []. cbn. rewrite app_nil_r.
  split; [reflexivity|]. split; [constructor|]. now intros a' [= <-].
Qed.

Lemma launches_raise {A} (P : list string -> Prop) (Q : A -> Prop) (e : pyexn) :
  launches P Q (raise e).
Proof.
  intros s. exists []. cbn. rewrite app_nil_r.
  split; [reflexivity|]. split; [constructor|]. discriminate.
Qed.

Lemma launches_print (P : list string -> Prop) (line : string) :
  launches P (fun _ => True) (print line).
Proof.
  intros s. exists []. cbn. rewrite app_nil_r.
  split; [reflexivity|]. split; [constructor|]. trivial.
Qed.

Lemma launches_input (P : list string -> Prop) (prompt : string) :
  launches P (fun _ => True) (input prompt).
Proof.
  intros s. exists []. unfold input.
  destruct (stdin s) as [|[l| |] rest]; cbn; rewrite app_nil_r;
    (split; [reflexivity|]; split; [constructor|]; trivial).
Qed.

Lemma launches_call (P : list string -> Prop) (E : env) (cmd : list string) :
  P cmd -> launches P (fun _ => True) (subprocess_call E cmd).
Proof.
  intros Hc s. exists [cmd]. unfold subprocess_call.
  destruct (node E cmd); cbn;
    (split; [reflexivity|]; split; [now repeat constructor|]; trivial).
Qed.

Lemma launches_bind {A B} (P : list string -> Prop)
  (Q : A -> Prop) (R : B -> Prop) (m : M A) (k : A -> M B) :
  launches P Q m -> (forall a, Q a -> launches P R (k a)) ->
  launches P R (bind m k).
Proof.
  intros Hm Hk s. destruct (Hm s) as (ex1 & Hc1 & Hp1 & Hq).
  unfold bind. destruct (m s) as [[e|a] s1]; cbn [fst snd] in *.
  - exists ex1. split; [assumption|]. split; [assumption|]. discriminate.
  - destruct (Hk a (Hq a eq_refl) s1) as (ex2 & Hc2 & Hp2 & Hr).
    exists (ex1 ++ ex2). rewrite Hc2, Hc1, app_assoc.
    split; [reflexivity|]. split; [now apply Forall_app|assumption].
Qed.

Lemma launches_try {A} (P : list string -> Prop) (Q : A -> Prop)
  (m : M A) (handler : pyexn -> option (M A)) :
  launches P Q m ->
  (forall e h, handler e = Some h -> launches P Q h) ->
  launches P Q (try_except m handler).
Proof.
  intros Hm Hh s. destruct (Hm s) as (ex1 & Hc1 & Hp1 & Hq).
  unfold try_except. destruct (m s) as [[e|a] s1]; cbn [fst snd] in *.
  - destruct (handler e) as [h|] eqn:Eh.
    + destruct (Hh e h Eh s1) as (ex2 & Hc2 & Hp2 & Hr).
      exists (ex1 ++ ex2). rewrite Hc2, Hc1, app_assoc.
      split; [reflexivity|]. split; [now apply Forall_app|assumption].
    + exists ex1. split; [assumption|]. split; [assumption|]. discriminate.
  - exists ex1. cbn [fst snd]. now repeat split.
Qed.

Lemma launches_weaken {A} (P : list string -> Prop) (Q Q' : A -> Prop) (m : M A) :
  launches P Q m -> (forall a, Q a -> Q' a) -> launches P Q' m.
Proof.
  intros Hm Hq s. destruct (Hm s) as (ex & Hc & Hp & H).
  exists ex. repeat split; auto.
Qed.

Lemma launches_when (P : list string -> Prop) (c : bool) (m : M unit) :
  launches P (fun _ => True) m -> launches P (fun _ => True) (when c m).
Proof. intros Hm. destruct c; [exact Hm|now apply launches_ret]. Qed.

Lemma launches_exit {A} (P : list string -> Prop) (Q : A -> Prop) (code : Z) :
  launches P Q (sys_exit code).
Proof. apply launches_raise. Qed.

Lemma launches_node_version (P : list string -> Prop) (E : env) :
  launches P (fun _ => True) (run_node_version E).
Proof.
  unfold run_node_version. destruct (node_version E);
    [apply launches_raise|now apply launches_ret].
Qed.

End Proc_facts.

(** ** play_story_choice.py: the oldest story is left out *)

Module Choice_claims.
Import OS OS_facts Proc Proc_facts play_story_choice.

Ltac handler_cases e h Hh :=
  intros e h Hh; destruct e; cbn in Hh; try discriminate Hh;
  injection Hh as <-.

Ltac launch :=
  repeat first
    [ apply launches_print
    | apply launches_input
    | apply launches_exit
    | apply launches_node_version
    | apply launches_when
    | apply launches_ret; exact I
    | eapply launches_bind; [|intros ? ?] ].

Ltac next_round IH :=
  match goal with
  | |- context [choose_from _ _ ?s0] =>
      let Hc := fresh in let Hs := fresh in
      destruct (IH s0) as [Hc Hs];
      split; [rewrite Hc; reflexivity|exact Hs]
  end.



Lemma pick_In (available : list entry) (n : Z) (story : entry) :
  pick available n = Some story -> In story available.
Proof.
  unfold pick. destruct (_ && _)%bool; [|discriminate].
  apply nth_error_In.
Qed.

(** Whatever is typed, the story the loop hands over is one of those on
    offer, and the loop starts no command. *)
Lemma choose_from_spec (available : list entry) (keys : list key) :
  forall s,
    calls (snd (choose_from available keys s)) = calls s
    /\ (forall story, fst (choose_from available keys s) = inr story ->
                      In story available).
Proof.
  induction keys as [|k keys IH]; intros s; cbn [choose_from].
  - split; [reflexivity|discriminate].
  - destruct k as [l| |]; try (split; [reflexivity|discriminate]).
    destruct (Py.parse_int (Py.strip l)) as [n|].
    + destruct (pick available n) as [story|] eqn:Hp.
      * cbn [fst snd calls]. split; [reflexivity|].
        intros story' [= <-]. eapply pick_In, Hp.
      * next_round IH.
    + next_round IH.
Qed.

Lemma launches_choose (P : list string -> Prop) (available : list entry) :
  launches P (fun story => In story available) (choose available).
Proof.
  intros s. exists []. unfold choose. rewrite app_nil_r.
  destruct (choose_from_spec available (stdin s) s) as [Hc Hs].
  split; [exact Hc|]. split; [constructor|exact Hs].
Qed.

Lemma launches_display (P : list string -> Prop) (E : env) (l : list entry) :
  forall i, launches P (fun _ => True) (display E i l).
Proof.
  induction l as [|story l IH]; intros i; cbn [display].
  - now apply launches_ret.
  - launch. apply IH.
Qed.

Lemma launches_close_prompt (P : list string -> Prop) (E : env) (prompt : string) :
  launches P (fun _ => True) (close_prompt E prompt).
Proof.
  unfold close_prompt. apply launches_when. apply launches_try.
  - launch.
  - handler_cases e h Hh; now apply launches_ret.
Qed.



Lemma run_script_state (m : M unit) (keys : list key) :
  snd (run_script m keys) = snd (m (mkState keys [] [])).
Proof.
  unfold run_script. destruct (m (mkState keys [] [])) as [[e|u] s];
    [destruct e|]; reflexivity.
Qed.



End Choice_claims.

(** ** Launchers: the exit status *)

Module Exit_facts.
Import OS Proc Proc_facts.

(** A part that starts no story does not matter. *)
Lemma ends_well_other {A} (E : env) (P : list string -> Prop)
  (Q : A -> Prop) (m : M A) :
  launches P Q m -> (forall cmd, P cmd -> ~ played E cmd) -> ends_well E m.
Proof.
  intros Hm Hp s. destruct (Hm s) as (extra & Hc & Hall & _).
  exists extra. split; [exact Hc|]. intros Hex. exfalso.
  apply Exists_exists in Hex as (cmd & Hin & Hplayed).
  rewrite Forall_forall in Hall. exact (Hp cmd (Hall cmd Hin) Hplayed).
Qed.

(** A part that starts one command and returns whenever that command
    comes back. *)
Lemma ends_well_play {A} (E : env) (Q : A -> Prop) (m : M A) (cmd : list string) :
  launches (fun c => c = cmd) Q m ->
  (forall code, node E cmd = inr code -> returns m) ->
  ends_well E m.
Proof.
  intros Hm Hret s. destruct (Hm s) as (extra & Hc & Hall & _).
  exists extra. split; [exact Hc|]. intros Hex.
  apply Exists_exists in Hex as (c & Hin & (f & code & Hf & Hn)).
  rewrite Forall_forall in Hall. rewrite (Hall c Hin) in Hn.
  exact (Hret code Hn s).
Qed.

(** Before the story is played nothing else is started. *)
Lemma ends_well_bind {A B} (E : env) (Q : A -> Prop) (m : M A) (k : A -> M B) :
  launches (fun _ => False) Q m ->
  (forall a, ends_well E (k a)) ->
  ends_well E (bind m k).
Proof.
  intros Hm Hk s. destruct (Hm s) as (ex1 & Hc1 & Hall & _).
  assert (ex1 = []) by (destruct ex1; [reflexivity|now inversion Hall]).
  subst ex1. rewrite app_nil_r in Hc1.
  unfold bind. destruct (m s) as [[e|a] s1]; cbn [fst snd] in *.
  - exists []. rewrite app_nil_r. split; [exact Hc1|]. intros H. inversion H.
  - destruct (Hk a s1) as (ex2 & Hc2 & Hr). exists ex2.
    rewrite Hc2, Hc1. now split.
Qed.

Lemma returns_close_prompt (E : env) (prompt : string) :
  returns (play_story_choice.close_prompt E prompt).
Proof.
  intros s. unfold play_story_choice.close_prompt, when.
  destruct (win_tty E); [|now exists tt].
  unfold try_except, bind, input.
  destruct (stdin s) as [|[l| |] rest]; now exists tt.
Qed.

Ltac launch_full :=
  repeat first
    [ apply Choice_claims.launches_close_prompt
    | apply Choice_claims.launches_display
    | apply Choice_claims.launches_choose
    | apply launches_print
    | apply launches_input
    | apply launches_exit
    | apply launches_raise
    | apply launches_node_version
    | apply launches_when
    | apply launches_ret; exact I
    | apply (launches_ret _ (fun _ => True)); exact I
    | apply launches_call; reflexivity
    | match goal with
      | |- launches _ _ (match ?x with _ => _ end) => destruct x
      end
    | apply launches_try;
      [|let e := fresh "e" in
        let h := fresh "h" in
        let Hh := fresh "Hh" in
        intros e h Hh; destruct e; cbn in Hh;
        try discriminate Hh; injection Hh as <-]
    | eapply launches_bind; [|intros ? ?] ].

(** run.py, lines 222-256 *)
Lemma run_app_launches (E : env) (f : string) :
  launches (fun c => c = ["node"; "run_story.js"; f]) (fun _ => True)
           (run.run_app E f).
Proof. unfold run.run_app, run.pause. launch_full. Qed.

Lemma run_app_returns (E : env) (f : string) (code : Z) :
  node E ["node"; "run_story.js"; f] = inr code -> returns (run.run_app E f).
Proof.
  intros Hn s. unfold run.run_app, try_except, bind, print, subprocess_call.
  cbn [fst snd stdin stdout calls]. rewrite Hn. unfold when.
  destruct (win_tty E); [|now exists tt].
  unfold input. cbn [fst snd stdin stdout calls].
  destruct (stdin s) as [|[l| |] rest]; now exists tt.
Qed.

Lemma run_app_ends_well (E : env) (f : string) : ends_well E (run.run_app E f).
Proof.
  eapply ends_well_play; [apply run_app_launches|].
  intros code. apply run_app_returns.
Qed.

Lemma generator_not_played (E : env) (cmd : list string) :
  cmd = ["node"; "temp_generator.js"] -> ~ played E cmd.
Proof. intros -> (f & code & Hf & _). discriminate Hf. Qed.

Lemma nothing_not_played (E : env) (cmd : list string) :
  False -> ~ played E cmd.
Proof. intros []. Qed.

Lemma run_main_ends_well (E : env) (a : run.args) : ends_well E (run.main E a).
Proof.
  unfold run.main.
  eapply ends_well_bind; [launch_full|intros _].
  eapply ends_well_bind; [launch_full|intros _].
  destruct (run.generate a) as [g|].
  - eapply ends_well_other; [|apply generator_not_played].
    unfold run.generate_new_story, run.pause. launch_full.
  - eapply ends_well_bind; [|intros f; apply run_app_ends_well].
    unfold run.determine_story.
    destruct (run.truthy (run.story_file a)) as [f|].
    + destruct (negb (exists_file E f)); launch_full.
    + destruct (run.find_latest_story E); launch_full.
Qed.

(** play_latest.py, lines 78-104 *)
Lemma play_latest_main_ends_well (E : env) : ends_well E (play_latest.main E).
Proof.
  unfold play_latest.main.
  do 4 (eapply ends_well_bind; [launch_full|intros _]).
  destruct (play_latest.find_latest_story E) as [story|].
  - do 3 (eapply ends_well_bind; [launch_full|intros _]).
    eapply (ends_well_play E _ _ ["node"; "run_story.js"; story_path E story]).
    + launch_full.
    + intros code Hn s. unfold try_except, bind, print, subprocess_call.
      cbn [fst snd stdin stdout calls]. rewrite Hn.
      cbn [fst snd stdin stdout calls].
      match goal with
      | |- context [play_story_choice.close_prompt E ?pr ?s1] =>
          destruct (returns_close_prompt E pr s1) as [[] Hr];
          destruct (play_story_choice.close_prompt E pr s1) as [[e|[]] s2];
          [discriminate Hr|now exists tt]
      end.
  - eapply (ends_well_other E _ (fun _ => True));
      [|apply nothing_not_played]. launch_full.
Qed.

(** play_story_choice.py, lines 108-129 *)
Lemma play_story_choice_main_ends_well (E : env) :
  ends_well E (play_story_choice.main E).
Proof.
  unfold play_story_choice.main.
  repeat (eapply ends_well_bind; [launch_full|intros ?]).
  match goal with
  | |- context [story_path E ?story] =>
      eapply (ends_well_play E _ _ ["node"; "run_story.js"; story_path E story])
  end.
  - launch_full.
  - intros code Hn s. unfold try_except, bind, print, subprocess_call.
    cbn [fst snd stdin stdout calls]. rewrite Hn.
    cbn [fst snd stdin stdout calls].
    match goal with
    | |- context [play_story_choice.close_prompt E ?pr ?s1] =>
        destruct (returns_close_prompt E pr s1) as [[] Hr];
        destruct (play_story_choice.close_prompt E pr s1) as [[e|[]] s2];
        [discriminate Hr|now exists tt]
    end.
Qed.

(** A launcher that has played a story whose interpreter came back ends
    with exit status 0. *)
Lemma exit_zero (E : env) (m : M unit) (keys : list key) (f : string) (code : Z) :
  ends_well E m ->
  node E ["node"; "run_story.js"; f] = inr code ->
  In ["node"; "run_story.js"; f] (calls (snd (run_script m keys))) ->
  fst (run_script m keys) = Exit 0.
Proof.
  intros Hm Hn Hin. rewrite Choice_claims.run_script_state in Hin.
  destruct (Hm (mkState keys [] [])) as (extra & Hc & Hr).
  rewrite Hc in Hin. cbn [calls app] in Hin.
  destruct Hr as [u Hu].
  { apply Exists_exists. exists ["node"; "run_story.js"; f].
    split; [exact Hin|]. now exists f, code. }
  unfold run_script. destruct (m (mkState keys [] [])) as [[e|u'] s1];
    [discriminate Hu|reflexivity].
Qed.

End Exit_facts.

(** ** Launchers: what becomes of the interpreter's exit status *)

Module Exit_claims.
Import OS Proc Exit_facts.

(** C4, as stated, fails: the interpreter ends with status 3 on the story
    it is given, and both launchers end with status 0; with status 0 from
    the interpreter they end the same way. *)
Lemma launcher_exit_ignores_interpreter_status :
  node (sample_env Posix 3) ["node"; "run_story.js"; "stories/b.json"] = inr 3%Z
  /\ calls (snd (run_script (run.main (sample_env Posix 3) (run.mkArgs None None)) []))
     = [["node"; "run_story.js"; "stories/b.json"]]
  /\ fst (run_script (run.main (sample_env Posix 3) (run.mkArgs None None)) [])
     = Exit 0
  /\ calls (snd (run_script (play_latest.main (sample_env Posix 3)) []))
     = [["node"; "run_story.js"; "stories/b.json"]]
  /\ fst (run_script (play_latest.main (sample_env Posix 3)) []) = Exit 0
  /\ fst (run_script (run.main (sample_env Posix 0) (run.mkArgs None None)) [])
     = Exit 0
  /\ fst (run_script (play_latest.main (sample_env Posix 0)) []) = Exit 0.
Proof. repeat split; vm_compute; reflexivity. Qed.

(** C4, amended: the launchers keep the interpreter's exit status in a
    local variable and do not pass it on: whenever a launcher has run the
    interpreter on a story file and the interpreter has come back, with
    any status, the launcher's own exit status is 0. *)
Theorem launcher_exit_status_is_zero (E : env) (a : run.args)
  (keys : list key) (f : string) (code : Z) :
  node E ["node"; "run_story.js"; f] = inr code ->
  (In ["node"; "run_story.js"; f]
      (calls (snd (run_script (run.main E a) keys))) ->
   fst (run_script (run.main E a) keys) = Exit 0)
  /\ (In ["node"; "run_story.js"; f]
         (calls (snd (run_script (play_latest.main E) keys))) ->
      fst (run_script (play_latest.main E) keys) = Exit 0)
  /\ (In ["node"; "run_story.js"; f]
         (calls (snd (run_script (play_story_choice.main E) keys))) ->
      fst (run_script (play_story_choice.main E) keys) = Exit 0).
Proof.
  intros Hn. repeat split; intros Hin; eapply exit_zero; eauto.
  - apply run_main_ends_well.
  - apply play_latest_main_ends_well.
  - apply play_story_choice_main_ends_well.
Qed.

Lemma launcher_exit_status_is_zero_witness :
  node (sample_env Windows 3) ["node"; "run_story.js"; "stories\b.json"]
  = inr 3%Z
  /\ fst (run_script (run.main (sample_env Windows 3) (run.mkArgs None None))
                     [Line ""])
     = Exit 0.
Proof.
  split; [reflexivity|].
  destruct (launcher_exit_status_is_zero (sample_env Windows 3)
              (run.mkArgs None None) [Line ""] "stories\b.json" 3 eq_refl)
    as [Hrun _].
  apply Hrun. vm_compute. left. reflexivity.
Defined.

End Exit_claims.

(** ** The renamer: what it leaves alone and what it logs *)

Module Renamer_frame.
Import OS OS_facts Glob_facts Renamer_facts rename_by_age.



(** Every [os.rename] of the loop takes the name at some position of
    [file_info] to the target name of that position. *)
Lemma rename_loop_log (p : platform) (l : list (string * Z)) :
  forall i w old new,
    In (old, new) (renames (rename_loop p i l w)) ->
    In (old, new) (renames w)
    \/ exists j, nth_error (map fst l) j = Some old /\ new = new_name (i + j).
Proof.
  induction l as [|[x m] l IH]; intros i w old new H;
    cbn [rename_loop] in H; [now left|].
  apply IH in H as [H|(j & Hj & ->)].
  - unfold rename_step in H.
    destruct (path_exists p (fs w) (new_name i)); [now left|].
    cbn [fs stdout renames] in H.
    destruct (rename p (fs w) x (new_name i)); cbn [print renames] in H;
      apply in_app_or in H as [H|[[= <- <-]|[]]]; auto;
      right; exists 0; (split; [reflexivity|f_equal; lia]).
  - right. exists (S j). split; [exact Hj|f_equal; lia].
Qed.



End Renamer_frame.

(** ** The renamer: more of what a run guarantees *)

Module Renamer_extras.
Import OS OS_facts Glob_facts Renamer_facts Name_facts Stage_facts Rank_facts.
Import Renamer_frame rename_by_age.

Lemma run_world (p : platform) (d : directory) :
  rename_images_by_age p (initial d)
  = Returned (world_of (rename_images_by_age p (initial d))).
Proof. now rewrite rename_images_by_age_eq. Qed.

Lemma run_world_nonempty (p : platform) (d : directory) :
  is_empty (candidates p d) = false ->
  world_of (rename_images_by_age p (initial d))
  = print (rename_loop p 0 (ranked p d) (initial d))
          (summary (List.length (candidates p d))).
Proof.
  intros He. rewrite rename_images_by_age_eq. cbn [world_of fs initial].
  rewrite He. destruct (is_empty (jpg_files p d)) eqn:Hj; [|reflexivity].
  unfold candidates in He. destruct (jpg_files p d); discriminate.
Qed.

Lemma run_world_empty (p : platform) (d : directory) :
  is_empty (candidates p d) = true ->
  exists msg, world_of (rename_images_by_age p (initial d)) = print (initial d) msg.
Proof.
  intros He. rewrite rename_images_by_age_eq. cbn [world_of fs initial].
  rewrite He. destruct (is_empty (jpg_files p d)); eexists; reflexivity.
Qed.

(** X2: The [os.rename] calls of a run: each takes the name at some position
    [j] of the sorted [file_info] to the target name of rank [j]. *)
Theorem renames_follow_ranks (p : platform) (d : directory) :
  exists w',
    rename_images_by_age p (initial d) = Returned w'
    /\ forall old new,
         In (old, new) (renames w') ->
         exists j, nth_error (map fst (ranked p d)) j = Some old
                   /\ new = new_name j.
Proof.
  exists (world_of (rename_images_by_age p (initial d))).
  split; [apply run_world|]. intros old new H.
  destruct (is_empty (candidates p d)) eqn:He.
  - destruct (run_world_empty p d He) as [msg Hw]. rewrite Hw in H.
    destruct H.
  - rewrite run_world_nonempty in H by assumption. cbn [print renames] in H.
    apply rename_loop_log in H as [[]|(j & Hj & ->)]. now exists j.
Qed.

End Renamer_extras.

(** ** The renamer: a second run, and how often a file is listed *)

Module Renamer_rerun.
Import OS OS_facts Glob_facts Renamer_facts Name_facts Stage_facts Rank_facts.
Import Renamer_frame Renamer_extras rename_by_age.

(** Under the conditions of a clean run the directory it leaves is the
    last stage. *)
Lemma clean_run_fs (p : platform) (d : directory) :
  NoDup (keys p d) -> targets_free p d = true -> none_protected p d = true ->
  fs (world_of (rename_images_by_age p (initial d)))
  = stage (map fst (ranked p d)) d.
Proof.
  intros Hnd Hfree Hprot.
  destruct (is_empty (candidates p d)) eqn:He.
  - destruct (run_world_empty p d He) as [msg ->]. cbn [print fs initial].
    pose proof (ranked_length p d) as Hl.
    destruct (candidates p d); [|discriminate].
    destruct (ranked p d); [symmetry; apply stage_nil|discriminate].
  - rewrite run_world_nonempty by assumption. cbn [print fs].
    apply (rename_loop_stage p (List.length (candidates p d)) d Hnd
             (targets_free_fresh p d Hfree) (ranked p d) [] (initial d)).
    + cbn [List.length Nat.add]. now rewrite ranked_length.
    + intros x Hx. apply (none_protected_sources p); try assumption.
      now apply ranked_names.
    + now rewrite stage_nil.
Qed.

(** Whether a listed name is a candidate does not depend on the rest of
    the directory. *)
Lemma candidates_transfer (p : platform) (d d' : directory) (n : string) :
  In n (candidates p d) -> In n (listdir d') -> In n (candidates p d').
Proof. rewrite !candidates_In, !jpg_files_In. tauto. Qed.

(** X4: After a clean run of at most 1000 candidates no candidate is left, and
    a second run only prints that there is nothing to do. *)
Theorem second_run_finds_nothing (p : platform) (d : directory) :
  wf p d = true ->
  targets_free p d = true ->
  none_protected p d = true ->
  (List.length (candidates p d) <=? 1000)%nat = true ->
  exists w' msg,
    rename_images_by_age p (initial d) = Returned w'
    /\ candidates p (fs w') = []
    /\ (msg = no_jpg_msg \/ msg = nothing_to_rename_msg)
    /\ rename_images_by_age p w'
       = Returned (mkWorld (fs w') (stdout w' ++ [msg]) (renames w')).
Proof.
  intros Hwf Hfree Hprot Hlen. apply wf_NoDup in Hwf. apply Nat.leb_le in Hlen.
  set (w' := world_of (rename_images_by_age p (initial d))).
  assert (Hnone : candidates p (fs w') = []).
  { destruct (candidates p (fs w')) as [|n l] eqn:Hc; [reflexivity|exfalso].
    assert (Hn : In n (candidates p (fs w'))) by (rewrite Hc; now left).
    clear Hc. unfold w' in Hn. rewrite clean_run_fs in Hn by assumption.
    pose proof (candidates_listed _ _ _ Hn) as Hl.
    unfold listdir, stage in Hl. rewrite map_map in Hl.
    apply in_map_iff in Hl as (e & Hname & He).
    unfold renamed in Hname.
    destruct (index_of (e_name e) (map fst (ranked p d))) as [j|] eqn:Hi.
    - cbn [with_name e_name] in Hname. subst n.
      apply candidates_In in Hn as [_ Hz].
      apply index_of_lt in Hi. rewrite length_map, ranked_length in Hi.
      assert (Hj : Py.startswith (new_name j) "0" = true)
        by (apply new_name_zero_prefixed; lia).
      congruence.
    - subst n. apply index_of_None in Hi. apply Hi, ranked_names.
      eapply candidates_transfer; [exact Hn|]. now apply in_map. }
  exists w', (if is_empty (jpg_files p (fs w')) then no_jpg_msg
              else nothing_to_rename_msg).
  split; [apply run_world|]. split; [exact Hnone|].
  split; [destruct (is_empty (jpg_files p (fs w'))); auto|].
  rewrite rename_images_by_age_eq, Hnone. cbn [is_empty].
  destruct (is_empty (jpg_files p (fs w'))); reflexivity.
Qed.

Lemma second_run_finds_nothing_witness :
  let d := [jpg "c.jpeg" 0; jpg "a.jpg" 2; jpg "b.JPG" 2] in
  exists w',
    rename_images_by_age Windows (initial d) = Returned w'
    /\ candidates Windows (fs w') = []
    /\ exists w'', rename_images_by_age Windows w' = Returned w''
                   /\ fs w'' = fs w' /\ renames w'' = renames w'.
Proof.
  destruct (second_run_finds_nothing Windows
              [jpg "c.jpeg" 0; jpg "a.jpg" 2; jpg "b.JPG" 2]
              eq_refl eq_refl eq_refl eq_refl)
    as (w' & msg & Hrun & Hnone & _ & Hrun2).
  exists w'. split; [exact Hrun|]. split; [exact Hnone|].
  eexists. split; [exact Hrun2|]. split; reflexivity.
Defined.

(** Two suffixes neither of which ends the other never end one name. *)
Lemma endswith_exclusive (s1 s2 : string) :
  Py.endswith s1 s2 = false -> Py.endswith s2 s1 = false ->
  forall n, Py.endswith n s1 = true -> Py.endswith n s2 = true -> False.
Proof.
  intros H12 H21 n. induction n as [|c n IH]; cbn [Py.endswith]; intros H1 H2.
  - rewrite orb_false_r in H1, H2.
    apply String.eqb_eq in H1, H2. subst s1 s2. discriminate H12.
  - apply orb_true_iff in H1 as [H1|H1], H2 as [H2|H2].
    + apply String.eqb_eq in H1, H2. subst s1 s2.
      cbn [Py.endswith] in H12. rewrite String.eqb_refl in H12. discriminate.
    + apply String.eqb_eq in H1. subst s1. cbn [Py.endswith] in H12.
      rewrite H2, orb_true_r in H12. discriminate.
    + apply String.eqb_eq in H2. subst s2. cbn [Py.endswith] in H21.
      rewrite H1, orb_true_r in H21. discriminate.
    + now apply IH.
Qed.

Lemma glob_posix_In (d : directory) (suf n : string) :
  literal suf = true ->
  In n (glob Posix d (String "*" suf)) -> Py.endswith n suf = true.
Proof.
  intros Hl Hn. apply glob_In in Hn as (_ & _ & Hm); [|reflexivity].
  cbn [normcase] in Hm. now rewrite fnmatch_star in Hm.
Qed.

Lemma glob_NoDup (p : platform) (d : directory) (pat : string) :
  NoDup (listdir d) -> NoDup (glob p d pat).
Proof.
  intros Hnd. unfold glob, fnmatch_filter.
  destruct (ishidden pat); repeat apply NoDup_filter; exact Hnd.
Qed.

(** X5: On POSIX the four globs of line 7 share no name: every candidate is
    listed once. *)
Theorem posix_candidates_listed_once (d : directory) :
  wf Posix d = true -> NoDup (candidates Posix d).
Proof.
  intros Hwf. apply wf_NoDup in Hwf.
  assert (Hnd : NoDup (listdir d)).
  { rewrite keys_listdir in Hwf. cbn [normcase] in Hwf.
    now rewrite map_id in Hwf. }
  unfold candidates. apply NoDup_filter. unfold jpg_files.
  repeat (apply NoDup_app; [now apply glob_NoDup| |]);
    try now apply glob_NoDup.
  all: intros n H1 H2; rewrite ?in_app_iff in H2;
    apply glob_posix_In in H1; [|reflexivity];
    repeat (destruct H2 as [H2|H2]);
    apply glob_posix_In in H2; try reflexivity;
    revert H1 H2; apply endswith_exclusive; reflexivity.
Qed.

Lemma posix_candidates_listed_once_witness :
  NoDup (candidates Posix [jpg "a.jpg" 1; jpg "a.JPG" 2; jpg "a.jpeg" 3;
                           jpg "b.jpg.JPEG" 4]).
Proof.
  apply (posix_candidates_listed_once
           [jpg "a.jpg" 1; jpg "a.JPG" 2; jpg "a.jpeg" 3; jpg "b.jpg.JPEG" 4]).
  reflexivity.
Defined.

(** X6: On Windows [fnmatch] folds the case of pattern and name, so [*.JPG]
    selects what [*.jpg] selects and [*.JPEG] what [*.jpeg] selects: every
    candidate is listed twice and the count of the summary is even. *)
Theorem windows_candidates_listed_twice (d : directory) :
  jpg_files Windows d
  = glob Windows d "*.jpg" ++ glob Windows d "*.jpg"
    ++ glob Windows d "*.jpeg" ++ glob Windows d "*.jpeg"
  /\ (forall n, Nat.Even (count_occ string_dec (candidates Windows d) n))
  /\ Nat.Even (List.length (candidates Windows d)).
Proof.
  assert (Hj : jpg_files Windows d
               = glob Windows d "*.jpg" ++ glob Windows d "*.jpg"
                 ++ glob Windows d "*.jpeg" ++ glob Windows d "*.jpeg")
    by reflexivity.
  split; [exact Hj|]. unfold candidates. rewrite Hj.
  set (nz := fun file : string => negb (Py.startswith file "0")).
  rewrite !filter_app. split.
  - intros n. rewrite !count_occ_app.
    exists (count_occ string_dec (filter nz (glob Windows d "*.jpg")) n
            + count_occ string_dec (filter nz (glob Windows d "*.jpeg")) n).
    lia.
  - rewrite !length_app.
    exists (List.length (filter nz (glob Windows d "*.jpg"))
            + List.length (filter nz (glob Windows d "*.jpeg"))).
    lia.
Qed.

End Renamer_rerun.

(** ** Newest story: [max] against the sorted list *)

Module Latest_facts.
Import OS Proc Sort_facts.

Section Max_facts.
Context {A : Type} (key : A -> Z).

Lemma max_by_cons (l : list A) :
  forall x y,
    Py.max_by key x (y :: l)
    = if (key (Py.max_by key y l) <=? key x)%Z then x else Py.max_by key y l.
Proof.
  unfold Py.max_by. induction l as [|z l IH]; intros x y.
  - cbn [fold_left].
    destruct (key x <? key y)%Z eqn:H1, (key y <=? key x)%Z eqn:H2;
      try reflexivity; lia.
  - change (fold_left _ (y :: z :: l) x)
      with (fold_left (fun best y0 => if (key best <? key y0)%Z then y0 else best)
              (z :: l) (if (key x <? key y)%Z then y else x)).
    rewrite (IH y z).
    destruct (key x <? key y)%Z eqn:H1.
    + rewrite (IH y z).
      destruct (key (fold_left _ l z) <=? key y)%Z eqn:H2.
      * destruct (key y <=? key x)%Z eqn:H3; [lia|reflexivity].
      * destruct (key (fold_left _ l z) <=? key x)%Z eqn:H3; [lia|reflexivity].
    + rewrite (IH x z).
      destruct (key (fold_left _ l z) <=? key y)%Z eqn:H2.
      * destruct (key (fold_left _ l z) <=? key x)%Z eqn:H3;
          destruct (key y <=? key x)%Z eqn:H4; try reflexivity; lia.
      * reflexivity.
Qed.

Lemma max_by_In (l : list A) :
  forall x, In (Py.max_by key x l) (x :: l).
Proof.
  unfold Py.max_by. induction l as [|y l IH]; intros x; cbn [fold_left].
  - now left.
  - destruct (IH (if (key x <? key y)%Z then y else x)) as [H|H].
    + rewrite <- H. destruct (key x <? key y)%Z; [right|]; now left.
    + right. now right.
Qed.

Lemma max_by_greatest (l : list A) :
  forall x a, In a (x :: l) -> (key a <= key (Py.max_by key x l))%Z.
Proof.
  induction l as [|y l IH]; intros x a Ha.
  - destruct Ha as [<-|[]]. cbn. lia.
  - rewrite max_by_cons.
    assert (Hy : forall b, In b (y :: l) -> (key b <= key (Py.max_by key y l))%Z)
      by (intros b; apply IH).
    destruct (key (Py.max_by key y l) <=? key x)%Z eqn:H.
    + destruct Ha as [<-|Ha]; [lia|]. specialize (Hy a Ha). lia.
    + destruct Ha as [<-|Ha]; [lia|]. now apply Hy.
Qed.

(** The greatest element that [max] finds is the one the stable sort with
    [reverse=True] puts first. *)
Lemma sorted_reverse_head (l : list A) :
  forall x, hd_error (Py.sorted_reverse key (x :: l)) = Some (Py.max_by key x l).
Proof.
  induction l as [|y l IH]; intros x; [reflexivity|].
  rewrite max_by_cons. specialize (IH y).
  change (Py.sorted_reverse key (x :: y :: l))
    with (Py.insert_reverse key x (Py.sorted_reverse key (y :: l))).
  destruct (Py.sorted_reverse key (y :: l)) as [|m t]; [discriminate|].
  injection IH as ->. cbn [Py.insert_reverse].
  now destruct (key (Py.max_by key y l) <=? key x)%Z.
Qed.



End Max_facts.

End Latest_facts.

(** ** Which story the launchers find *)

Module Story_extras.
Import OS Proc Sort_facts Glob_facts Latest_facts.

Lemma normcase_json (p : platform) : normcase p "*.json" = "*.json".
Proof. destruct p; vm_compute; reflexivity. Qed.

(** What [stories_dir.glob("*.json")] lists. *)
Lemma json_glob_In (p : platform) (d : directory) (s : entry) :
  In s (path_glob p d "*.json")
  <-> In s d /\ Py.endswith (normcase p (e_name s)) ".json" = true.
Proof.
  unfold path_glob. rewrite filter_In, normcase_json.
  now rewrite fnmatch_star by reflexivity.
Qed.

(** X7: [find_latest_story] returns a story of [stories] whose name ends in
    [.json] and which no other such story is newer than; it returns
    [None] only when there is no such story.  [run.py] and
    [play_latest.py] find the same one. *)
Theorem latest_story_is_newest_json (E : env) :
  match play_latest.find_latest_story E with
  | Some s =>
      exists d,
        stories_dir E = Some d
        /\ In s d
        /\ Py.endswith (normcase (plat E) (e_name s)) ".json" = true
        /\ (forall s', In s' d ->
              Py.endswith (normcase (plat E) (e_name s')) ".json" = true ->
              (e_mtime s' <= e_mtime s)%Z)
  | None =>
      forall d s', stories_dir E = Some d -> In s' d ->
        Py.endswith (normcase (plat E) (e_name s')) ".json" = false
  end
  /\ run.find_latest_story E = play_latest.find_latest_story E.
Proof.
  split; [|reflexivity]. unfold play_latest.find_latest_story.
  destruct (stories_dir E) as [d|]; [|discriminate].
  destruct (path_glob (plat E) d "*.json") as [|x rest] eqn:Hg.
  - intros d' s' [= <-] Hs'.
    destruct (Py.endswith (normcase (plat E) (e_name s')) ".json") eqn:He;
      [exfalso|reflexivity].
    assert (H : In s' (path_glob (plat E) d "*.json"))
      by now apply json_glob_In.
    now rewrite Hg in H.
  - exists d. split; [reflexivity|].
    pose proof (max_by_In e_mtime rest x) as Hin. rewrite <- Hg in Hin.
    apply json_glob_In in Hin as [Hd He]. repeat split; try assumption.
    intros s' Hs' He'. apply max_by_greatest. rewrite <- Hg.
    now apply json_glob_In.
Qed.

(** X8: The story [play_latest.py] plays is the one the selector of
    [play_story_choice.py] lists first: [max] and the stable sort with
    [reverse=True] settle equal times the same way. *)
Theorem latest_is_first_of_selector (E : env) :
  play_latest.find_latest_story E
  = hd_error (play_story_choice.get_all_stories E).
Proof.
  unfold play_latest.find_latest_story, play_story_choice.get_all_stories.
  destruct (stories_dir E) as [d|]; [|reflexivity].
  destruct (path_glob (plat E) d "*.json") as [|x rest]; [reflexivity|].
  cbn [rename_by_age.is_empty]. symmetry. apply sorted_reverse_head.
Qed.


End Story_extras.

(** ** What the launchers start *)

Module Launch_facts.
Import OS Proc Proc_facts Exit_facts.

Lemma launches_covers {A} (P P' : list string -> Prop) (Q : A -> Prop) (m : M A) :
  launches P Q m -> (forall c, P c -> P' c) -> launches P' Q m.
Proof.
  intros Hm Hp s. destruct (Hm s) as (extra & Hc & Hall & Hq).
  exists extra. repeat split; try assumption.
  eapply Forall_impl; [|exact Hall]. exact Hp.
Qed.

(** A launcher's commands, read from a run of the script. *)
Lemma launches_run_script (P : list string -> Prop) (m : M unit)
  (keys : list key) (cmd : list string) :
  launches P (fun _ => True) m ->
  In cmd (calls (snd (run_script m keys))) -> P cmd.
Proof.
  intros Hm. rewrite Choice_claims.run_script_state.
  destruct (Hm (mkState keys [] [])) as (extra & -> & Hall & _).
  cbn [calls app]. rewrite Forall_forall in Hall. apply Hall.
Qed.

(** The check of node: past it, node was found. *)
Lemma launches_node_found (P : list string -> Prop) (E : env) :
  launches P (fun _ => node_version E = None) (run_node_version E).
Proof.
  unfold run_node_version. destruct (node_version E) as [e|].
  - apply launches_raise.
  - now apply launches_ret.
Qed.

(** The check of the companion files: past it, none is missing. *)
Lemma launches_files_check (P : list string -> Prop) (E : env)
  (required : list string) (stop : M unit) :
  launches P (fun _ => False) stop ->
  launches P (fun _ => forall f, In f required -> exists_file E f = true)
    (if negb (rename_by_age.is_empty
                (filter (fun f => negb (exists_file E f)) required))
     then stop else ret tt).
Proof.
  intros Hs.
  destruct (filter (fun f => negb (exists_file E f)) required) as [|x l] eqn:Hm;
    cbn [rename_by_age.is_empty negb].
  - apply launches_ret. intros f Hf.
    destruct (exists_file E f) eqn:He; [reflexivity|exfalso].
    assert (H : In f (filter (fun f => negb (exists_file E f)) required))
      by (apply filter_In; now rewrite He).
    now rewrite Hm in H.
  - eapply launches_weaken; [exact Hs|intros ? []].
Qed.

End Launch_facts.

Module Launch_extras.
Import OS Proc Proc_facts Exit_facts Launch_facts.
Local Open Scope proc_scope.

(** X10: [play_latest.py] starts a command only once node and its two
    companion files were found, and the command plays the latest story. *)
Theorem play_latest_plays_only_the_latest (E : env) (keys : list key)
  (cmd : list string) :
  In cmd (calls (snd (run_script (play_latest.main E) keys))) ->
  node_version E = None
  /\ (forall f, In f play_latest.required_files -> exists_file E f = true)
  /\ exists story,
       play_latest.find_latest_story E = Some story
       /\ cmd = ["node"; "run_story.js"; story_path E story].
Proof.
  intros Hin. pattern cmd. revert Hin. apply launches_run_script.
  unfold play_latest.main.
  eapply launches_bind; [apply launches_print|intros _ _].
  eapply launches_bind; [apply launches_print|intros _ _].
  eapply launches_bind.
  { apply launches_try.
    - eapply launches_bind; [apply launches_node_found|intros ? Hn].
      eapply launches_weaken; [apply launches_print|intros; exact Hn].
    - intros e h He. destruct e; try discriminate He; injection He as <-.
      all: launch_full. }
  intros ? Hn. cbv beta in Hn.
  eapply launches_bind.
  { apply launches_files_check.
    launch_full. }
  intros ? Hf. cbv beta in Hf.
  destruct (play_latest.find_latest_story E) as [story|]; [|launch_full].
  do 3 (eapply launches_bind; [apply launches_print|intros _ _]).
  apply launches_try.
  - do 3 (eapply launches_bind; [apply launches_print|intros _ _]).
    eapply launches_bind; [|intros ? ?; launch_full].
    apply launches_call. repeat split; try assumption. now exists story.
  - intros e h He. destruct e; cbn in He; try discriminate He;
      injection He as <-; launch_full.
Qed.

Lemma play_latest_plays_only_the_latest_witness :
  In ["node"; "run_story.js"; "stories/b.json"]
     (calls (snd (run_script (play_latest.main (sample_env Posix 0)) [])))
  /\ exists story,
       play_latest.find_latest_story (sample_env Posix 0) = Some story
       /\ ["node"; "run_story.js"; "stories/b.json"]
          = ["node"; "run_story.js"; story_path (sample_env Posix 0) story].
Proof.
  assert (Hin : In ["node"; "run_story.js"; "stories/b.json"]
                   (calls (snd (run_script (play_latest.main (sample_env Posix 0))
                                           []))))
    by (vm_compute; now left).
  split; [exact Hin|].
  exact (proj2 (proj2 (play_latest_plays_only_the_latest _ _ _ Hin))).
Defined.

(** X11: [run.py] starts a command only once node and its three companion
    files were found.  With [--generate] the command is the generator and
    no story is played, whatever story file was named; without it the
    command plays the named story file, which exists, or else the latest
    story. *)
Theorem run_starts_what_was_asked (E : env) (a : run.args) (keys : list key)
  (cmd : list string) :
  In cmd (calls (snd (run_script (run.main E a) keys))) ->
  node_version E = None
  /\ (forall f, In f run.required_files -> exists_file E f = true)
  /\ match run.generate a with
     | Some _ => cmd = ["node"; "temp_generator.js"]
     | None =>
         match run.truthy (run.story_file a) with
         | Some f =>
             exists_file E f = true /\ cmd = ["node"; "run_story.js"; f]
         | None =>
             exists story,
               run.find_latest_story E = Some story
               /\ cmd = ["node"; "run_story.js"; story_path E story]
         end
     end.
Proof.
  intros Hin. pattern cmd. revert Hin. apply launches_run_script.
  unfold run.main.
  eapply launches_bind.
  { apply launches_try; [apply launches_node_found|].
    intros e h He. destruct e; try discriminate He; injection He as <-.
    all: launch_full. }
  intros ? Hn. cbv beta in Hn.
  eapply launches_bind; [apply launches_files_check; launch_full|].
  intros ? Hf. cbv beta in Hf.
  destruct (run.generate a) as [g|].
  - eapply launches_covers with (P := fun c => c = ["node"; "temp_generator.js"]).
    + unfold run.generate_new_story, run.pause. launch_full.
    + intros c ->. now repeat split.
  - eapply launches_bind with
      (Q := fun f =>
              match run.truthy (run.story_file a) with
              | Some f' => exists_file E f' = true /\ f = f'
              | None => exists story, run.find_latest_story E = Some story
                                      /\ f = story_path E story
              end).
    + unfold run.determine_story.
      destruct (run.truthy (run.story_file a)) as [f|].
      * destruct (exists_file E f) eqn:He; cbn [negb]; [|launch_full].
        apply launches_ret. now split.
      * destruct (run.find_latest_story E) as [story|]; [|launch_full].
        eapply launches_bind; [apply launches_print|intros _ _].
        apply launches_ret. now exists story.
    + intros f Hq. eapply launches_covers; [apply run_app_launches|].
      intros c ->. repeat split; try assumption.
      destruct (run.truthy (run.story_file a)) as [f'|].
      * destruct Hq as [He ->]. now split.
      * destruct Hq as (story & Hs & ->). now exists story.
Qed.

Lemma run_starts_what_was_asked_witness :
  let a := run.mkArgs (Some "stories/c.json") (Some 20%Z) in
  In ["node"; "temp_generator.js"]
     (calls (snd (run_script (run.main (sample_env Posix 0) a) [])))
  /\ forall cmd,
       In cmd (calls (snd (run_script (run.main (sample_env Posix 0) a) []))) ->
       cmd = ["node"; "temp_generator.js"].
Proof.
  split; [vm_compute; now left|].
  intros cmd Hin.
  exact (proj2 (proj2 (run_starts_what_was_asked (sample_env Posix 0)
                         (run.mkArgs (Some "stories/c.json") (Some 20%Z))
                         [] cmd Hin))).
Defined.

End Launch_extras.

(** ** How the launchers end when something is missing *)

Module Ending_facts.
Import OS Proc Proc_facts.
Local Open Scope proc_scope.

Lemma run_bind {A B} (m : M A) (k : A -> M B) (s s' : state) (a : A) :
  m s = (inr a, s') -> bind m k s = k a s'.
Proof. unfold bind. now intros ->. Qed.

Lemma run_bind_raise {A B} (m : M A) (k : A -> M B) (s s' : state) (e : pyexn) :
  m s = (inl e, s') -> bind m k s = (inl e, s').
Proof. unfold bind. now intros ->. Qed.

(** The check of node, when node is there. *)
Lemma node_check_passes (E : env) (after : M unit)
  (handler : pyexn -> option (M unit)) (s : state) :
  node_version E = None ->
  try_except (run_node_version E ;; after) handler s
  = try_except after handler s.
Proof.
  intros Hn. unfold try_except, bind, run_node_version. now rewrite Hn.
Qed.

(** The check of the companion files, when none is missing. *)
Lemma no_file_missing (E : env) (required : list string) :
  (forall f, In f required -> exists_file E f = true) ->
  filter (fun f => negb (exists_file E f)) required = [].
Proof.
  intros H. induction required as [|f l IH]; [reflexivity|]. cbn [filter].
  rewrite (H f) by now left. cbn [negb]. apply IH.
  intros g Hg. apply H. now right.
Qed.

Lemma some_file_missing (E : env) (required : list string) (f : string) :
  In f required -> exists_file E f = false ->
  rename_by_age.is_empty (filter (fun f => negb (exists_file E f)) required)
  = false.
Proof.
  intros Hin He.
  assert (H : In f (filter (fun f => negb (exists_file E f)) required))
    by (apply filter_In; now rewrite He).
  now destruct (filter (fun f => negb (exists_file E f)) required).
Qed.

Ltac run_monad :=
  unfold bind, try_except, print, input, ret, sys_exit, raise, when,
    subprocess_call;
  cbn [fst snd calls stdin stdout app is_Exception].

End Ending_facts.

Module Ending_extras.
Import OS Proc Proc_facts Ending_facts.
Local Open Scope proc_scope.

(** X12: When node is not found, or one of the three companion files is
    missing, [run.py] ends with exit status 1: it starts nothing and reads
    nothing from the keyboard. *)
Theorem run_stops_when_something_is_missing (E : env) (a : run.args)
  (keys : list key) :
  node_version E = Some CalledProcessError
  \/ node_version E = Some FileNotFound
  \/ (node_version E = None
      /\ exists f, In f run.required_files /\ exists_file E f = false) ->
  fst (run_script (run.main E a) keys) = Exit 1
  /\ calls (snd (run_script (run.main E a) keys)) = []
  /\ stdin (snd (run_script (run.main E a) keys)) = keys.
Proof.
  intros H. unfold run_script, run.main.
  destruct H as [Hn|[Hn|(Hn & f & Hin & He)]].
  - unfold bind at 1. unfold try_except, run_node_version. rewrite Hn.
    cbn. auto.
  - unfold bind at 1. unfold try_except, run_node_version. rewrite Hn.
    cbn. auto.
  - unfold bind at 1. unfold try_except at 1, run_node_version. rewrite Hn.
    cbn [ret]. unfold bind at 1.
    rewrite (some_file_missing E _ f Hin He). cbn. auto.
Qed.

Lemma run_stops_when_something_is_missing_witness :
  let E := mkEnv Posix true None (fun f => negb (String.eqb f "StorySystem.js"))
                 (Some sample_stories) (fun _ => inr 0%Z) None (fun _ => "") in
  fst (run_script (run.main E (run.mkArgs None None)) [Line "x"]) = Exit 1
  /\ calls (snd (run_script (run.main E (run.mkArgs None None)) [Line "x"])) = []
  /\ stdin (snd (run_script (run.main E (run.mkArgs None None)) [Line "x"]))
     = [Line "x"].
Proof.
  apply (run_stops_when_something_is_missing
           (mkEnv Posix true None (fun f => negb (String.eqb f "StorySystem.js"))
                  (Some sample_stories) (fun _ => inr 0%Z) None (fun _ => ""))).
  right. right. split; [reflexivity|].
  exists "StorySystem.js". split; [cbn; tauto|reflexivity].
Defined.



(** X14: Without [--generate], [run.py] ends with exit status 1 and starts
    nothing when the story file it was given does not exist (it does not
    fall back on the latest story), and when it was given none and there
    is no story. *)
Theorem run_stops_without_a_story (E : env) (a : run.args) (keys : list key) :
  node_version E = None ->
  (forall f, In f run.required_files -> exists_file E f = true) ->
  run.generate a = None ->
  (exists f, run.truthy (run.story_file a) = Some f
             /\ exists_file E f = false)
  \/ (run.truthy (run.story_file a) = None
      /\ run.find_latest_story E = None) ->
  fst (run_script (run.main E a) keys) = Exit 1
  /\ calls (snd (run_script (run.main E a) keys)) = []
  /\ stdin (snd (run_script (run.main E a) keys)) = keys.
Proof.
  intros Hn Hf Hg H. unfold run_script, run.main.
  unfold bind at 1. unfold try_except at 1. unfold run_node_version.
  rewrite Hn. cbn [ret]. unfold bind at 1.
  rewrite (no_file_missing E _ Hf). cbn [rename_by_age.is_empty negb ret].
  rewrite Hg. unfold run.determine_story.
  destruct H as [(f & -> & He)|[-> Hl]].
  - rewrite He. run_monad. auto.
  - rewrite Hl. run_monad. auto.
Qed.

Lemma run_stops_without_a_story_witness :
  let E := mkEnv Posix true None (fun f => negb (String.eqb f "old.json"))
                 (Some sample_stories) (fun _ => inr 0%Z) None (fun _ => "") in
  let a := run.mkArgs (Some "old.json") None in
  fst (run_script (run.main E a) []) = Exit 1
  /\ calls (snd (run_script (run.main E a) [])) = []
  /\ stdin (snd (run_script (run.main E a) [])) = [].
Proof.
  apply (run_stops_without_a_story
           (mkEnv Posix true None (fun f => negb (String.eqb f "old.json"))
                  (Some sample_stories) (fun _ => inr 0%Z) None (fun _ => ""))
           (run.mkArgs (Some "old.json") None) []).
  - reflexivity.
  - intros f [<-|[<-|[<-|[]]]]; reflexivity.
  - reflexivity.
  - left. exists "old.json". split; reflexivity.
Defined.

(** X15: When the story cannot be started ([subprocess.call] raises an
    [Exception]), [run.py] ends with exit status 1 but [play_latest.py],
    in the same setting, with 0.  When the user interrupts the story both
    end with 0.  Either way the one command was that of the latest
    story. *)
Theorem failed_launch_exit_status (E : env) (a : run.args) (keys : list key)
  (story : entry) (e : pyexn) :
  node_version E = None ->
  (forall f, In f run.required_files -> exists_file E f = true) ->
  run.generate a = None ->
  run.truthy (run.story_file a) = None ->
  run.find_latest_story E = Some story ->
  node E ["node"; "run_story.js"; story_path E story] = inl e ->
  e = KeyboardInterrupt \/ is_Exception e = true ->
  fst (run_script (run.main E a) keys)
  = Exit (if is_Exception e then 1 else 0)
  /\ fst (run_script (play_latest.main E) keys) = Exit 0
  /\ calls (snd (run_script (run.main E a) keys))
     = [["node"; "run_story.js"; story_path E story]]
  /\ calls (snd (run_script (play_latest.main E) keys))
     = [["node"; "run_story.js"; story_path E story]].
Proof.
  intros Hn Hf Hg Ht Hl Hc He.
  assert (Hf' : forall f, In f play_latest.required_files ->
                          exists_file E f = true).
  { intros f [<-|[<-|[]]]; apply Hf; cbn; tauto. }
  assert (Hrun :
    fst (run_script (run.main E a) keys) = Exit (if is_Exception e then 1 else 0)
    /\ calls (snd (run_script (run.main E a) keys))
       = [["node"; "run_story.js"; story_path E story]]).
  { unfold run_script, run.main.
    unfold bind at 1. unfold try_except at 1. unfold run_node_version.
    rewrite Hn. cbn [ret]. unfold bind at 1.
    rewrite (no_file_missing E _ Hf). cbn [rename_by_age.is_empty negb ret].
    rewrite Hg. unfold run.determine_story. rewrite Ht, Hl.
    unfold run.run_app, run.pause, play_story_choice.close_prompt.
    run_monad. rewrite Hc.
    destruct He as [->|He].
    - cbn [fst snd calls stdin stdout app is_Exception]. now split.
    - rewrite He. destruct e; try discriminate He;
        cbn [fst snd calls stdin stdout app is_Exception];
        (destruct (win_tty E); [destruct keys as [|[l| |] rest]|]);
        cbn [fst snd calls stdin stdout app]; now split. }
  assert (Hlatest :
    fst (run_script (play_latest.main E) keys) = Exit 0
    /\ calls (snd (run_script (play_latest.main E) keys))
       = [["node"; "run_story.js"; story_path E story]]).
  { unfold run_script, play_latest.main.
    unfold run_node_version. rewrite Hn.
    rewrite (no_file_missing E _ Hf'). cbn [rename_by_age.is_empty negb].
    change (play_latest.find_latest_story E) with (run.find_latest_story E).
    rewrite Hl. unfold play_story_choice.close_prompt.
    run_monad. rewrite Hc.
    destruct He as [->|He].
    - cbn [fst snd calls stdin stdout app is_Exception]. now split.
    - destruct e; try discriminate He;
        cbn [fst snd calls stdin stdout app is_Exception];
        (destruct (win_tty E); [destruct keys as [|[l| |] rest]|]);
        cbn [fst snd calls stdin stdout app]; now split. }
  tauto.
Qed.

Lemma failed_launch_exit_status_witness :
  let E := mkEnv Windows true None (fun _ => true) (Some sample_stories)
                 (fun _ => inl FileNotFound) None (fun _ => "") in
  fst (run_script (run.main E (run.mkArgs None None)) [Line ""]) = Exit 1
  /\ fst (run_script (play_latest.main E) [Line ""]) = Exit 0.
Proof.
  destruct (failed_launch_exit_status
              (mkEnv Windows true None (fun _ => true) (Some sample_stories)
                     (fun _ => inl FileNotFound) None (fun _ => ""))
              (run.mkArgs None None) [Line ""]
              (mkEntry "b.json" 9 "story b" false) FileNotFound
              eq_refl (fun _ _ => eq_refl) eq_refl eq_refl eq_refl eq_refl
              (or_intror eq_refl))
    as (H1 & H2 & _).
  split; [exact H1|exact H2].
Defined.

End Ending_extras.

(** ** play_latest.py: leaving before a story is played *)

Module Waiting_extras.
Import OS Proc Proc_facts Ending_facts.
Local Open Scope proc_scope.

(** X16: When node is not found, a companion file is missing or there is no
    story, [play_latest.py] starts nothing and asks for Enter before it
    leaves: a line gives exit status 1, but at the end of the input, or on
    Ctrl-C, the exception of [input] is not caught and the script ends in
    a traceback. *)
Theorem play_latest_waits_before_leaving (E : env) (keys : list key) :
  node_version E = Some CalledProcessError
  \/ node_version E = Some FileNotFound
  \/ (node_version E = None
      /\ ((exists f, In f play_latest.required_files
                     /\ exists_file E f = false)
          \/ ((forall f, In f play_latest.required_files ->
                         exists_file E f = true)
              /\ play_latest.find_latest_story E = None))) ->
  fst (run_script (play_latest.main E) keys)
  = match keys with
    | Line _ :: _ => Exit 1
    | CtrlC :: _ => Traceback KeyboardInterrupt
    | _ => Traceback EOFError
    end
  /\ calls (snd (run_script (play_latest.main E) keys)) = [].
Proof.
  intros H. unfold run_script, play_latest.main, run_node_version.
  destruct H as [Hn|[Hn|(Hn & [(f & Hin & He)|(Hf & Hl)])]]; rewrite Hn.
  - run_monad. destruct keys as [|[l| |] rest]; now split.
  - run_monad. destruct keys as [|[l| |] rest]; now split.
  - rewrite (some_file_missing E _ f Hin He). run_monad.
    destruct keys as [|[l| |] rest]; now split.
  - rewrite (no_file_missing E _ Hf), Hl. run_monad.
    destruct keys as [|[l| |] rest]; now split.
Qed.

Lemma play_latest_waits_before_leaving_witness :
  let E := mkEnv Posix false (Some FileNotFound) (fun _ => true)
                 (Some sample_stories) (fun _ => inr 0%Z) None (fun _ => "") in
  fst (run_script (play_latest.main E) []) = Traceback EOFError
  /\ calls (snd (run_script (play_latest.main E) [])) = [].
Proof.
  apply (play_latest_waits_before_leaving
           (mkEnv Posix false (Some FileNotFound) (fun _ => true)
                  (Some sample_stories) (fun _ => inr 0%Z) None (fun _ => ""))
           []).
  right. left. reflexivity.
Defined.

End Waiting_extras.

(** ** Reading back a number that was written in decimal *)

Module Int_facts.
Import Py Py_facts.

Lemma nat_of_digit (d : nat) : d < 10 -> nat_of_ascii (digit d) = 48 + d.
Proof. intros H. unfold digit. apply nat_ascii_embedding. lia. Qed.

Lemma isdigit_digit (d : nat) : d < 10 -> isdigit (digit d) = true.
Proof.
  intros H. unfold isdigit. rewrite (nat_of_digit d H).
  apply andb_true_iff. split; apply Nat.leb_le; lia.
Qed.

Lemma isdigit_not_space (c : ascii) : isdigit c = true -> isspace c = false.
Proof.
  unfold isdigit, isspace. set (n := nat_of_ascii c). intros H.
  apply andb_true_iff in H as [H1 H2]. apply Nat.leb_le in H1, H2.
  assert (E1 : (n =? 32)%nat = false) by (apply Nat.eqb_neq; lia).
  assert (E2 : (n <=? 13)%nat = false) by (apply Nat.leb_gt; lia).
  assert (E3 : (n <=? 31)%nat = false) by (apply Nat.leb_gt; lia).
  rewrite E1, E2, E3. now rewrite !andb_false_r.
Qed.

Lemma digits_all_digits (fuel : nat) :
  forall n acc, n < fuel -> all_digits acc -> all_digits (digits fuel n acc).
Proof.
  induction fuel as [|fuel IH]; intros n acc Hn Ha; [lia|].
  cbn [digits]. destruct (n <? 10)%nat eqn:H10.
  - apply Nat.ltb_lt in H10. split; [now apply isdigit_digit|exact Ha].
  - apply Nat.ltb_ge in H10. apply IH.
    + apply Nat.Div0.div_lt_upper_bound. lia.
    + split; [|exact Ha]. apply isdigit_digit. apply Nat.mod_upper_bound. lia.
Qed.

Lemma digits_not_empty (fuel : nat) :
  forall n acc, n < fuel -> digits fuel n acc <> "".
Proof.
  induction fuel as [|fuel IH]; intros n acc Hn; [lia|].
  cbn [digits]. destruct (n <? 10)%nat eqn:H10; [discriminate|].
  apply Nat.ltb_ge in H10. apply IH. apply Nat.Div0.div_lt_upper_bound. lia.
Qed.

Lemma str_all_digits (n : nat) : all_digits (str n) /\ str n <> "".
Proof.
  unfold str. split; [apply digits_all_digits; [lia|exact I]|].
  apply digits_not_empty. lia.
Qed.

Lemma lstrip_digits (s : string) : all_digits s -> lstrip s = s.
Proof.
  destruct s as [|c s]; [reflexivity|]. intros [Hc _]. cbn [lstrip].
  now rewrite (isdigit_not_space c Hc).
Qed.

Lemma rstrip_digits (s : string) : all_digits s -> rstrip s = s.
Proof.
  induction s as [|c s IH]; [reflexivity|]. intros [Hc Hs]. cbn [rstrip].
  rewrite (IH Hs). destruct s; [|reflexivity].
  now rewrite (isdigit_not_space c Hc).
Qed.

Lemma strip_digits (s : string) : all_digits s -> strip s = s.
Proof.
  intros H. unfold strip. rewrite (lstrip_digits s H). now apply rstrip_digits.
Qed.

Lemma int_digits_all_digits (s : string) :
  forall (a : nat) (b : bool),
    all_digits s -> s <> "" \/ b = true ->
    int_digits (Z.of_nat a) b s = Some (Z.of_nat (int_from a s)).
Proof.
  induction s as [|c s IH]; intros a b Hs Hb.
  - destruct Hb as [Hb| ->]; [now elim Hb|reflexivity].
  - destruct Hs as [Hc Hs]. cbn [int_digits int_from]. rewrite Hc.
    replace (10 * Z.of_nat a + Z.of_nat (nat_of_ascii c - 48))%Z
      with (Z.of_nat (10 * a + (nat_of_ascii c - 48))) by lia.
    apply IH; [exact Hs|now right].
Qed.

Lemma parse_int_all_digits (s : string) :
  all_digits s -> s <> "" -> parse_int s = Some (Z.of_nat (int s)).
Proof.
  intros Hs Hne. unfold parse_int, int. rewrite (strip_digits s Hs).
  destruct s as [|c s']; [now elim Hne|].
  assert (Hd : int_digits 0 false (String c s')
               = Some (Z.of_nat (int_from 0 (String c s'))))
    by (apply (int_digits_all_digits (String c s') 0 false Hs); now left).
  destruct Hs as [Hc _]. revert Hd.
  destruct c as [[] [] [] [] [] [] [] []];
    try (vm_compute in Hc; discriminate Hc); intros Hd; exact Hd.
Qed.

(** [int(str(n).strip()) == n] *)
Lemma parse_int_str (n : nat) :
  parse_int (strip (str n)) = Some (Z.of_nat n).
Proof.
  destruct (str_all_digits n) as [Hs Hne].
  rewrite (strip_digits _ Hs), (parse_int_all_digits _ Hs Hne).
  now rewrite int_str.
Qed.

End Int_facts.

(** ** The selector of play_story_choice.py *)

Module Selector_facts.
Import OS Proc Proc_facts Ending_facts Int_facts play_story_choice.
Local Open Scope proc_scope.

(** The list of lines 81-85 reads no key and starts nothing. *)
Lemma display_run (E : env) (l : list entry) :
  forall i s, exists out,
    display E i l s = (inr tt, mkState (stdin s) out (calls s)).
Proof.
  induction l as [|story l IH]; intros i s.
  - exists (stdout s). now destruct s.
  - cbn [display]. run_monad.
    match goal with
    | |- context [display E (S i) l ?s1] =>
        destruct (IH (S i) s1) as [out ->]
    end.
    now exists out.
Qed.

Lemma pick_nth (available : list entry) (k : nat) (story : entry) :
  nth_error available k = Some story ->
  pick available (Z.of_nat (S k)) = Some story.
Proof.
  intros H. unfold pick.
  assert (Hk : k < List.length available)
    by (apply nth_error_Some; now rewrite H).
  replace ((1 <=? Z.of_nat (S k)) && (Z.of_nat (S k) <=? Z.of_nat (List.length available)))%Z
    with true by (symmetry; apply andb_true_iff; split; apply Z.leb_le; lia).
  replace (Z.to_nat (Z.of_nat (S k) - 1)) with k by lia. exact H.
Qed.


(** The number of a listed story, typed, selects it. *)
Lemma choose_from_typed (available : list entry) (k : nat) (story : entry)
  (rest : list key) (s : state) :
  nth_error available k = Some story ->
  exists out,
    choose_from available (Line (Py.str (S k)) :: rest) s
    = (inr story, mkState rest out (calls s)).
Proof.
  intros H. cbn [choose_from]. rewrite parse_int_str, (pick_nth _ _ _ H).
  now eexists.
Qed.


Lemma available_not_empty (stories : list entry) :
  rename_by_age.is_empty (available_stories stories)
  = rename_by_age.is_empty stories.
Proof.
  unfold available_stories.
  now destruct stories as [|a [|b l]].
Qed.

(** Up to the question of lines 88-101: with node found and a story to
    offer, [main] reaches the loop with the keyboard untouched and nothing
    started. *)
Ltac reach_choice E Hn Hne :=
  unfold run_script, main, run_node_version; rewrite Hn; cbv zeta;
  rewrite (available_not_empty (get_all_stories E)) in Hne;
  rewrite (available_not_empty (get_all_stories E)), Hne;
  run_monad;
  match goal with
  | |- context [display E 1 ?l ?s] =>
      let out := fresh "out" in
      destruct (display_run E l 1 s) as [out ->]
  end;
  unfold choose; cbn [fst snd calls stdin stdout app].


End Selector_facts.

Module Selector_extras.
Import OS Proc Proc_facts Ending_facts Int_facts play_story_choice Selector_facts.
Local Open Scope proc_scope.







(** X20: When the check of node fails, or there is no story, the selector
    starts nothing and asks for Enter before it leaves: a line gives exit
    status 1, but at the end of the input, or on Ctrl-C, the exception of
    [input] is not caught and the script ends in a traceback. *)
Theorem selector_waits_before_leaving (E : env) (keys : list key) :
  node_version E = Some CalledProcessError
  \/ node_version E = Some FileNotFound
  \/ (node_version E = None /\ get_all_stories E = []) ->
  fst (run_script (main E) keys)
  = match keys with
    | Line _ :: _ => Exit 1
    | CtrlC :: _ => Traceback KeyboardInterrupt
    | _ => Traceback EOFError
    end
  /\ calls (snd (run_script (main E) keys)) = [].
Proof.
  intros H. unfold run_script, main, run_node_version.
  destruct H as [Hn|[Hn|[Hn Hs]]]; rewrite Hn.
  - run_monad. destruct keys as [|[l| |] rest]; now split.
  - run_monad. destruct keys as [|[l| |] rest]; now split.
  - cbv zeta. rewrite Hs. run_monad.
    destruct keys as [|[l| |] rest]; now split.
Qed.

Lemma selector_waits_before_leaving_witness :
  let E := mkEnv Posix true None (fun _ => true)
                 (Some [mkEntry "notes.txt" 8 "" false])
                 (fun _ => inr 0%Z) None (fun _ => "") in
  fst (run_script (main E) [CtrlC]) = Traceback KeyboardInterrupt
  /\ calls (snd (run_script (main E) [CtrlC])) = [].
Proof.
  apply (selector_waits_before_leaving
           (mkEnv Posix true None (fun _ => true)
                  (Some [mkEntry "notes.txt" 8 "" false])
                  (fun _ => inr 0%Z) None (fun _ => ""))
           [CtrlC]).
  right. right. split; reflexivity.
Defined.

(** X21: When the chosen story cannot be started ([subprocess.call] raises an
    [Exception]) or the user interrupts it, the selector started that one
    command and ends with exit status 0.  On Ctrl-C the last line printed
    is the goodbye of line 122; for an exception whose text is [msg] the
    line of line 124 is printed, [msg] after the words of the f-string,
    and after it at most the prompt of line 127. *)
Theorem selector_failed_launch_exit_status (E : env) (k : nat)
  (story : entry) (rest : list key) (e : pyexn) :
  node_version E = None ->
  nth_error (selectable E) k = Some story ->
  node E ["node"; "run_story.js"; story_path E story] = inl e ->
  e = KeyboardInterrupt \/ is_Exception e = true ->
  fst (run_script (main E) (Line (Py.str (S k)) :: rest)) = Exit 0
  /\ calls (snd (run_script (main E) (Line (Py.str (S k)) :: rest)))
     = [["node"; "run_story.js"; story_path E story]]
  /\ (e = KeyboardInterrupt ->
      last (stdout (snd (run_script (main E) (Line (Py.str (S k)) :: rest)))) ""
      = String "010"%char
          (String "010"%char "👋 Story interrupted by user. Goodbye!"))
  /\ (forall msg, e = OtherError msg ->
      exists before after,
        stdout (snd (run_script (main E) (Line (Py.str (S k)) :: rest)))
        = before ++ ["❌ Error running story: " ++ msg]%string ++ after
        /\ (after = []
            \/ after = [String "010"%char "Press Enter to close..."])).
Proof.
  intros Hn Hk Hc He.
  assert (Hne : rename_by_age.is_empty (selectable E) = false)
    by (destruct (selectable E); [now destruct k|reflexivity]).
  unfold selectable in *.
  reach_choice E Hn Hne.
  match goal with
  | |- context [choose_from ?av ?keys ?s] =>
      destruct (choose_from_typed av k story rest s Hk) as [out' ->]
  end.
  cbn [fst snd calls stdin stdout app]. rewrite Hc.
  destruct He as [->|He].
  - cbn [fst snd calls stdin stdout app].
    split; [reflexivity|split; [reflexivity|split]].
    + intros _. apply last_last.
    + intros msg [=].
  - destruct e; try discriminate He;
      cbn [fst snd calls stdin stdout app is_Exception exn_text];
      unfold close_prompt; run_monad;
      (destruct (win_tty E); [destruct rest as [|[l| |] rest']|]);
      cbn [fst snd calls stdin stdout app];
      (split; [reflexivity|split; [reflexivity|split; [intros [=]|]]]);
      intros msg' [=]; subst;
      first
        [ match goal with
          | |- context [(?X ++ [_]) ++ [?pr]] =>
              exists X, [pr]; split; [now rewrite <- app_assoc|now right]
          end
        | match goal with
          | |- context [?X ++ [_]] =>
              exists X, []; split; [reflexivity|now left]
          end ].
Qed.

Lemma selector_failed_launch_exit_status_witness :
  let E := mkEnv Windows true None (fun _ => true) (Some sample_stories)
                 (fun _ => inl (OtherError "Access is denied")) None
                 (fun _ => "") in
  fst (run_script (main E) [Line "2"]) = Exit 0
  /\ calls (snd (run_script (main E) [Line "2"]))
     = [["node"; "run_story.js"; "stories\a.json"]]
  /\ In "❌ Error running story: Access is denied"
        (stdout (snd (run_script (main E) [Line "2"]))).
Proof.
  destruct (selector_failed_launch_exit_status
              (mkEnv Windows true None (fun _ => true) (Some sample_stories)
                     (fun _ => inl (OtherError "Access is denied")) None
                     (fun _ => ""))
              1 (mkEntry "a.json" 5 "story a" false) []
              (OtherError "Access is denied")
              eq_refl eq_refl eq_refl (or_intror eq_refl))
    as (Hexit & Hcalls & _ & Hmsg).
  split; [exact Hexit|]. split; [exact Hcalls|].
  destruct (Hmsg "Access is denied" eq_refl) as (before & after & Hout & _).
  change (Py.str 2) with "2" in Hout. rewrite Hout.
  apply in_or_app. right. now left.
Defined.

End Selector_extras.

(** ** Directories with symbolic links *)

Module Links_facts.
Import OS OS_facts Renamer_facts Links.


















End Links_facts.

(** ** The renamer: a source that is skipped *)

Module Skip_facts.
Import OS OS_facts Glob_facts Renamer_facts Renamer_safety Renamer_frame.
Import Renamer_rerun Rank_facts rename_by_age.









End Skip_facts.

(** ** The renamer in a directory with symbolic links: what holds *)

Module Links_run.
Import OS OS_facts Glob_facts Renamer_facts Renamer_frame Skip_facts.
Import Links Links_facts.








(** A candidate that is a symbolic link whose target is gone ends the
    run: [os.path.getmtime] raises in the loop of lines 14-18, outside any
    [try], before a line is printed or a file renamed. *)
Lemma dangling_candidate_ends_the_run :
  rename_images_by_age Posix (initial [file "new.jpg" 2; dangling "a.jpg"])
  = Uncaught (FileNotFoundError "a.jpg" None)
             (initial [file "new.jpg" 2; dangling "a.jpg"]).
Proof. reflexivity. Qed.

End Links_run.

Module Links_claims.
Import OS OS_facts Glob_facts Renamer_facts Renamer_frame Skip_facts.
Import Links Links_facts Links_run.











End Links_claims.
